(** * RandLib: the distribution abstraction and the Gamma and Binomial generators

    A shallow embedding of [ContinuousDistribution.cpp], [GammaRand.cpp] and
    [BinomialRand.cpp].  C++ [double] is IEEE binary64, modelled by Rocq's
    primitive [float]; C++ [int] is modelled by [Z] (signed overflow is
    undefined behaviour in C++ and is not reached by the inputs considered
    here).  Functions that draw random numbers thread an explicit generator
    state; loops without an iteration cap take fuel. *)

From Stdlib Require Import Reals Lra ZArith List Bool Lia Floats.
Import ListNotations.

Set Implicit Arguments.
Set Warnings "-inexact-float".
Local Open Scope float_scope.

(** ** C++ [double] *)

Abbreviation double := float.

Definition NAN : double := nan.
Definition INFINITY : double := infinity.

Module Dbl.

(** The C++ comparison operators; every one is false on NaN except [!=]. *)
Definition lt (a b : double) : bool := a <? b.
Definition le (a b : double) : bool := a <=? b.
Definition gt (a b : double) : bool := b <? a.
Definition ge (a b : double) : bool := b <=? a.
Definition eq (a b : double) : bool := a =? b.

Definition isnan (x : double) : bool := is_nan x.
Definition isinf (x : double) : bool := is_infinity x.
Definition fabs (x : double) : double := abs x.

(** [std::min(a, b)] is [(b < a) ? b : a]; [std::max(a, b)] is
    [(a < b) ? b : a]. *)
Definition min (a b : double) : double := if b <? a then b else a.
Definition max (a b : double) : double := if a <? b then b else a.

(** Conversion of an [int] to [double]; exact for every 32-bit value. *)
Definition of_int (z : Z) : double :=
  if (z <? 0)%Z then - of_uint63 (Uint63.of_Z (- z)) else of_uint63 (Uint63.of_Z z).

(** The integer [m * 2^e] truncated toward zero, for [e < 0]. *)
Definition shift_trunc (m : positive) (e : Z) : Z :=
  Z.shiftr (Z.pos m) (- e).

(** Conversion of a [double] to [int]: truncation toward zero.  The
    conversion of NaN, of an infinity or of a value outside the range of
    [int] is undefined behaviour: [None]. *)
Definition to_int (x : double) : option Z :=
  match Prim2SF x with
  | S754_zero _ => Some 0%Z
  | S754_finite s m e =>
      let k := if (0 <=? e)%Z then Z.shiftl (Z.pos m) e else shift_trunc m e in
      let v := if s then (- k)%Z else k in
      if ((-2147483648 <=? v) && (v <=? 2147483647))%Z then Some v else None
  | _ => None
  end.

(** [std::floor]. *)
Definition floor (x : double) : double :=
  match Prim2SF x with
  | S754_finite s m e =>
      if (0 <=? e)%Z then x
      else
        let k := shift_trunc m e in
        let exact := (Z.shiftl k (- e) =? Z.pos m)%Z in
        if s then (if exact then x else - of_uint63 (Uint63.of_Z (k + 1)))
        else of_uint63 (Uint63.of_Z k)
  | _ => x
  end.

(** [std::round]: to the nearest integer, halfway cases away from zero. *)
Definition round (x : double) : double :=
  match Prim2SF x with
  | S754_finite s m e =>
      if (0 <=? e)%Z then x
      else
        let k := Z.shiftr (Z.pos m + Z.shiftl 1 (- e - 1)) (- e) in
        if s then - of_uint63 (Uint63.of_Z k) else of_uint63 (Uint63.of_Z k)
  | _ => x
  end.

End Dbl.

(** ** Collaborators whose bodies are outside the translated sources *)

(** [<cmath>] and the platform's [long double].  [RandMath::factorial],
    [RandMath::binomialCoef] and [RandMath::integral] return [long double];
    the callers divide, take logarithms and narrow the result to [double]. *)
Class Platform := {
  log : double -> double;
  exp : double -> double;
  pow : double -> double -> double;
  tgamma : double -> double;
  ldouble : Type;
  ld_of_double : double -> ldouble;
  ld_to_double : ldouble -> double;
  ld_div : ldouble -> ldouble -> ldouble;
  ld_log : ldouble -> ldouble;
  (** what reading a [double] local before its first assignment yields *)
  indeterminate : double
}.

(** [Constants.h]. *)
Class Constants := {
  M_PI : double;
  M_1_E : double;
  M_SQRT2 : double;
  M_SQRT3 : double;
  M_SQRT2PI : double
}.

(** The functions of [RandMath] that the translated code calls and whose
    bodies are not in [RandMath.h].  [findRoot] takes its starting point by
    reference: the model returns the success flag and the final value. *)
Class RandMathOps {PF : Platform} := {
  factorial : double -> ldouble;
  binomialCoef : Z -> Z -> ldouble;
  regularizedBetaFun : double -> double -> double -> double;
  findRoot : (double -> double) -> (double -> double) -> double -> bool * double;
  integral : (double -> double) -> double -> double -> double -> ldouble;
  sum : list double -> double;
  sampleMean : list double -> double
}.

Module RandMath.

(** Modelled from the spec: the body of [RandMath::areClose] is not in
    [RandMath.h]; its documentation there reads
    "@return |a - b| < eps * max(a, b)", with [eps] defaulting to [1e-6]. *)
Definition areClose_eps (a b eps : double) : bool :=
  Dbl.lt (Dbl.fabs (a - b)) (eps * Dbl.max a b).

Definition areClose (a b : double) : bool := areClose_eps a b 1e-6.

End RandMath.

(** ** Generator state and loops *)

(** A computation over a state [G]; [None] is a run that yields no value: an
    uncapped loop out of fuel, or undefined behaviour. *)
Definition Gen (G A : Type) : Type := G -> option (A * G).

Definition ret {G A} (a : A) : Gen G A := fun g => Some (a, g).

Definition bind {G A B} (m : Gen G A) (k : A -> Gen G B) : Gen G B :=
  fun g => match m g with
           | Some (a, g') => k a g'
           | None => None
           end.

Definition stuck {G A} : Gen G A := fun _ => None.

Declare Scope gen_scope.
Delimit Scope gen_scope with gen.
Notation "x <- m ;; k" := (bind m (fun x => k))
  (at level 61, m at next level, right associativity) : gen_scope.
Notation "' p <- m ;; k" := (bind m (fun x => match x with p => k end))
  (at level 61, p pattern, m at next level, right associativity) : gen_scope.
Local Open Scope gen_scope.

(** One pass through a loop body: go round again with new loop variables,
    or leave the loop (by its condition, [return] or [break]). *)
Inductive pass (X R : Type) : Type :=
| Again (x : X)
| Leave (r : R).
Arguments Again {X R} x.
Arguments Leave {X R} r.

(** [iterate n body x] runs [body] at most [n] times. *)
Fixpoint iterate {G X R} (n : positive) (body : X -> Gen G (pass X R)) (x : X)
  : Gen G (pass X R) :=
  let continue_with (k : X -> Gen G (pass X R)) (m : Gen G (pass X R)) :=
    r <- m ;; match r with Again x' => k x' | Leave v => ret (Leave v) end in
  match n with
  | xH => body x
  | xO p => continue_with (iterate p body) (iterate p body x)
  | xI p => continue_with (fun x' => continue_with (iterate p body) (iterate p body x')) (body x)
  end.

(** A loop run with [fuel] passes at most; no value when the fuel runs out. *)
Definition loop {G X R} (fuel : positive) (body : X -> Gen G (pass X R)) (x : X) : Gen G R :=
  r <- iterate fuel body x ;;
  match r with
  | Leave v => ret v
  | Again _ => stuck
  end.

(** What follows a pass: more passes, or out of the loop. *)
Definition andThen {G X R} (k : X -> Gen G (pass X R)) (r : pass X R) : Gen G (pass X R) :=
  match r with
  | Again x => k x
  | Leave v => ret (Leave v)
  end.

(** The same passes counted in unary: [runs k body x] makes [k] passes unless
    the body leaves the loop before. *)
Fixpoint runs {G X R} (k : nat) (body : X -> Gen G (pass X R)) (x : X)
  : Gen G (pass X R) :=
  match k with
  | O => ret (Again x)
  | S k' => r <- body x ;; match r with Again x' => runs k' body x' | Leave v => ret (Leave v) end
  end.

(** [for (T &var : outputData) var = draw();] *)
Fixpoint fill {G A} (draw : Gen G A) (outputData : list A) : Gen G (list A) :=
  match outputData with
  | [] => ret []
  | _ :: rest => v <- draw ;; vs <- fill draw rest ;; ret (v :: vs)
  end.

(** [for (T &var : outputData) var = update(var);] *)
Fixpoint refill {G A} (update : A -> Gen G A) (outputData : list A) : Gen G (list A) :=
  match outputData with
  | [] => ret []
  | var :: rest => v <- update var ;; vs <- refill update rest ;; ret (v :: vs)
  end.

(** The auxiliary standard-variate generators ([UniformRand], [NormalRand],
    [ExponentialRand], [BernoulliRand], [GeometricRand]) over the state [Rng]
    of the underlying bit source.  Each call returns its draw and the
    advanced state. *)
Class Variates (Rng : Type) := {
  Uniform_standardVariate : Rng -> double * Rng;
  Uniform_variate : double -> double -> Rng -> double * Rng;
  Normal_standardVariate : Rng -> double * Rng;
  Exponential_standardVariate : Rng -> double * Rng;
  Bernoulli_standardVariate : Rng -> Z * Rng;
  Bernoulli_variate : double -> Rng -> Z * Rng;
  GeometricRand : Type;
  Geometric_setProbability : GeometricRand -> double -> GeometricRand;
  Geometric_variate : GeometricRand -> Rng -> Z * Rng
}.

Definition draw {Rng A} (f : Rng -> A * Rng) : Gen Rng A :=
  fun g => Some (fst (f g), snd (f g)).

(** A conversion to [int] inside a computation. *)
Definition as_int {Rng} (x : double) : Gen Rng Z :=
  match Dbl.to_int x with
  | Some z => ret z
  | None => stuck
  end.

(** Every [int] value from 0 on: enough passes for a loop that counts an
    [int] upwards. *)
Definition int_fuel : positive := 2147483648.

(** ** [ContinuousDistribution] *)

Module ContinuousDistribution.

(** The virtual members the generic algorithms call on [this]. *)
Record t := {
  f : double -> double;
  F : double -> double;
  Mean : double;
  Variance : double
}.

(** [y[i] = v] on a vector. *)
Fixpoint assign (y : list double) (i : nat) (v : double) : list double :=
  match y, i with
  | [], _ => []
  | _ :: rest, O => v :: rest
  | h :: rest, S i' => h :: assign rest i' v
  end.

(** [for (size_t i = 0; i != size; ++i) y[i] = f(x[i]);] with [todo] the
    passes that remain, [size - i]. *)
Fixpoint pdf_loop (this : t) (x : list double) (todo i : nat) (y : list double)
  : list double :=
  match todo with
  | O => y
  | S todo' => pdf_loop this x todo' (S i) (assign y i (f this (nth i x 0)))
  end.

Definition ProbabilityDensityFunction (this : t) (x y : list double) : list double :=
  let size := length x in
  if (length y <? size)%nat then y
  else pdf_loop this x size 0 y.

Section WithRandMath.
Context {PF : Platform} {RM : RandMathOps}.

Definition Quantile (this : t) (p : double) : double :=
  if Dbl.lt p 0 || Dbl.gt p 1 then NAN
  else
    let root := Mean this in
    let root := if Dbl.isnan root || Dbl.isinf root then 0 else root in
    let '(found, root) := findRoot (fun x => F this x - p) (fun x => f this x) root in
    if found then root else INFINITY.

Definition Hazard (this : t) (x : double) : double :=
  f this x / (1.0 - F this x).

Definition epsilon : double := 1e-10.
Definition maxIter : Z := 1000.

(** [(y == 0) ? 0.0 : y * f(x)] with [y = funPtr(x)]. *)
Definition integrand (this : t) (funPtr : double -> double) (x : double) : double :=
  let y := funPtr x in
  if Dbl.eq y 0 then 0.0 else y * f this x.

(** [do { boundary = move(boundary); integrand = ...; }
    while (std::fabs(integrand) > epsilon && ++iter < maxIter);]
    The result is [iter] and the boundary at the exit. *)
Fixpoint searchBoundary (fuel : nat) (this : t) (funPtr : double -> double)
         (move : double -> double) (iter : Z) (boundary : double)
  : option (Z * double) :=
  match fuel with
  | O => None
  | S fuel' =>
      let boundary := move boundary in
      if Dbl.gt (Dbl.fabs (integrand this funPtr boundary)) epsilon then
        let iter := (iter + 1)%Z in
        if (iter <? maxIter)%Z
        then searchBoundary fuel' this funPtr move iter boundary
        else Some (iter, boundary)
      else Some (iter, boundary)
  end.

Definition ExpectedValue (this : t) (funPtr : double -> double) (startPoint : double)
  : option double :=
  let var := Variance this in
  match searchBoundary (Z.to_nat maxIter) this funPtr (fun x => x - var) 0 startPoint with
  | None => None
  | Some (iter, lowerBoundary) =>
      if (iter =? maxIter)%Z then Some NAN
      else
        match searchBoundary (Z.to_nat maxIter) this funPtr (fun x => x + var) 0 startPoint with
        | None => None
        | Some (iter, upperBoundary) =>
            if (iter =? maxIter)%Z then Some NAN
            else Some (ld_to_double
                         (integral (integrand this funPtr) lowerBoundary upperBoundary epsilon))
        end
  end.

Definition Median (this : t) : double := Quantile this 0.5.

(** The starting point that [Quantile] hands to Newton's method. *)
Definition newtonSeed (this : t) : double :=
  if Dbl.isnan (Mean this) || Dbl.isinf (Mean this) then 0 else Mean this.

(** *** The boundary search of [ExpectedValue], as the specification words it *)

(** The boundary after [k] steps away from [startPoint]. *)
Fixpoint boundaryAfter (move : double -> double) (k : nat) (startPoint : double) : double :=
  match k with
  | O => startPoint
  | S k' => move (boundaryAfter move k' startPoint)
  end.

(** The search stops where the magnitude of the integrand does not
    exceed [epsilon]. *)
Definition stopsAt (this : t) (funPtr : double -> double) (x : double) : bool :=
  negb (Dbl.gt (Dbl.fabs (integrand this funPtr x)) epsilon).

(** The first of the steps [1 .. 1000] at which the search stops. *)
Definition firstStop (this : t) (funPtr : double -> double)
           (move : double -> double) (startPoint : double) : option nat :=
  find (fun k => stopsAt this funPtr (boundaryAfter move k startPoint))
       (seq 1 (Z.to_nat maxIter)).


End WithRandMath.

End ContinuousDistribution.

(** ** [GammaRand] *)

Module GammaRand.

Record t := {
  alpha : double; theta : double; beta : double;
  alphaInv : double;
  cdfCoef : double; pdfCoef : double;
  variateCoef : double;
  (* constants of the generator for large shape *)
  m : double; s : double; s_2 : double; d : double; b : double;
  w : double; v : double; c : double
}.

Section WithCollaborators.
Context {PF : Platform} {RM : RandMathOps} {CS : Constants}.

Definition setConstantsForGenerator (this : t) : t :=
  let m := alpha this - 1 in
  let s_2 := sqrt (8.0 * alpha this / 3) + alpha this in
  let s := sqrt s_2 in
  let d := M_SQRT2 * M_SQRT3 * s_2 in
  let b := d + m in
  let w := s_2 / (m - 1) in
  let v := (s_2 + s_2) / (m * sqrt (alpha this)) in
  let c := b + log (s * d / b) - m - m - 3.7203285 in
  {| alpha := alpha this; theta := theta this; beta := beta this;
     alphaInv := alphaInv this;
     cdfCoef := cdfCoef this; pdfCoef := pdfCoef this;
     variateCoef := variateCoef this;
     m := m; s := s; s_2 := s_2; d := d; b := b; w := w; v := v; c := c |}.

Definition setParameters (this : t) (shape scale : double) : t :=
  let alpha := shape in
  let alpha := if Dbl.le alpha 0 then 1.0 else alpha in
  let alphaInv := 1.0 / alpha in
  let theta := scale in
  let theta := if Dbl.le theta 0 then 1.0 else theta in
  let beta := 1.0 / theta in
  let alphaRound := Dbl.round alpha in
  let '(alpha, cdfCoef) :=
    if RandMath.areClose alpha alphaRound
    then (alphaRound,
          ld_to_double (ld_div (ld_of_double 1.0) (factorial (alphaRound - 1))))
    else (alpha, 1.0 / tgamma alpha) in
  let pdfCoef := cdfCoef * pow beta alpha in
  let variateCoef := alphaInv + M_1_E in
  let this' :=
    {| alpha := alpha; theta := theta; beta := beta;
       alphaInv := alphaInv;
       cdfCoef := cdfCoef; pdfCoef := pdfCoef;
       variateCoef := variateCoef;
       m := m this; s := s this; s_2 := s_2 this; d := d this; b := b this;
       w := w this; v := v this; c := c this |} in
  if Dbl.gt alpha 3 then setConstantsForGenerator this' else this'.

(** The value [setParameters] keeps of a shape or scale argument: 1 in
    place of a non-positive one. *)
Definition clamped (x : double) : double := if Dbl.le x 0 then 1.0 else x.

Definition f (this : t) (x : double) : double :=
  if Dbl.lt x 0 then 0
  else
    let y := pow x (alpha this - 1) in
    let y := y * exp (- x * beta this) in
    pdfCoef this * y.

Definition Mean (this : t) : double := alpha this * theta this.
Definition Variance (this : t) : double := alpha this * theta this * theta this.

Section WithVariates.
Context {Rng : Type} {VR : Variates Rng}.

(** The passes allowed to a loop that the source leaves uncapped. *)
Variable fuel : positive.

(** [for (int i = 0; i < bound; ++i) rv += ExponentialRand::standardVariate();] *)
Definition sumOfExponentials (bound : double) : Gen Rng double :=
  loop int_fuel
       (fun '(i, rv) =>
          if Dbl.lt (Dbl.of_int i) bound then
            W <- draw Exponential_standardVariate ;;
            ret (Again ((i + 1)%Z, rv + W))
          else ret (Leave rv))
       (0%Z, 0).

Definition variateForIntegerShape (this : t) : Gen Rng double :=
  sumOfExponentials (alpha this).

Definition variateForHalfIntegerShape (this : t) : Gen Rng double :=
  rv <- sumOfExponentials (alpha this - 1) ;;
  N <- draw Normal_standardVariate ;;
  ret (rv + 0.5 * N * N).

Definition variateForSmallShape (this : t) : Gen Rng double :=
  loop 1000000000
       (fun iter : Z =>
          U <- draw Uniform_standardVariate ;;
          let p := alpha this * variateCoef this * U in
          W <- draw Exponential_standardVariate ;;
          let rv := if Dbl.le p 1 then pow p (alphaInv this)
                    else - log (variateCoef this * (1 - U)) in
          let accept := if Dbl.le p 1 then Dbl.le rv W
                        else Dbl.le ((1 - alpha this) * log rv) W in
          if accept then ret (Leave rv)
          else
            let iter := (iter + 1)%Z in
            if Dbl.lt (Dbl.of_int iter) 1e9 then ret (Again iter)
            else ret (Leave NAN))
       0%Z.

Definition variateForMediumShape (this : t) : Gen Rng double :=
  loop fuel
       (fun _ : unit =>
          W1 <- draw Exponential_standardVariate ;;
          W2 <- draw Exponential_standardVariate ;;
          if Dbl.lt W2 ((alpha this - 1) * (W1 - log W1 - 1))
          then ret (Again tt)
          else ret (Leave (alpha this * W1)))
       tt.

(** [do { N = NormalRand::standardVariate(); rv = s * N + m; }
    while (rv < 0 || rv > b);] *)
Definition truncatedNormal (this : t) : Gen Rng (double * double) :=
  loop fuel
       (fun _ : unit =>
          N <- draw Normal_standardVariate ;;
          let rv := s this * N + m this in
          if Dbl.lt rv 0 || Dbl.gt rv (b this)
          then ret (Again tt)
          else ret (Leave (N, rv)))
       tt.

Definition variateForLargeShape (this : t) : Gen Rng double :=
  loop 1000000000
       (fun iter : Z =>
          U <- draw Uniform_standardVariate ;;
          r <- (if Dbl.le U 0.0095722652 then
                  W1 <- draw Exponential_standardVariate ;;
                  W2 <- draw Exponential_standardVariate ;;
                  let rv := b this * (1 + W1 / d this) in
                  ret (Dbl.le (m this * (rv / b this - log (rv / m this)) + c this) W2, rv)
                else
                  '(N, rv) <- truncatedNormal this ;;
                  U <- draw Uniform_standardVariate ;;
                  let S := 0.5 * N * N in
                  let fast :=
                    if Dbl.gt N 0 then Dbl.lt U (1 - w this * S)
                    else Dbl.lt U (1 + S * (v this * N - w this)) in
                  ret (fast
                       || Dbl.lt (log U) (m this * log (rv / m this) + m this - rv + S),
                       rv)) ;;
          let '(accept, rv) := r in
          if accept then ret (Leave rv)
          else
            let iter := (iter + 1)%Z in
            if Dbl.lt (Dbl.of_int iter) 1e9 then ret (Again iter)
            else ret (Leave NAN))
       0%Z.

Definition scaled (this : t) (g : Gen Rng double) : Gen Rng double :=
  x <- g ;; ret (theta this * x).

Definition variate (this : t) : Gen Rng double :=
  let alphaRound := Dbl.round (alpha this) in
  if Dbl.lt (alpha this) 5 then
    if RandMath.areClose (alpha this) alphaRound then
      scaled this (variateForIntegerShape this)
    else if RandMath.areClose (alpha this - 0.5) alphaRound then
      scaled this (variateForIntegerShape this)
    else if Dbl.le (alpha this) 1 then
      scaled this (variateForSmallShape this)
    else if Dbl.le (alpha this) 3 then
      scaled this (variateForMediumShape this)
    else scaled this (variateForLargeShape this)
  else scaled this (variateForLargeShape this).

Definition sample (this : t) (outputData : list double) : Gen Rng (list double) :=
  let alphaRound := Dbl.round (alpha this) in
  if Dbl.lt (alpha this) 5 then
    if RandMath.areClose (alpha this) alphaRound then
      fill (scaled this (variateForIntegerShape this)) outputData
    else if RandMath.areClose (alpha this - 0.5) alphaRound then
      fill (scaled this (variateForHalfIntegerShape this)) outputData
    else if Dbl.le (alpha this) 1 then
      fill (scaled this (variateForSmallShape this)) outputData
    else if Dbl.le (alpha this) 3 then
      fill (scaled this (variateForMediumShape this)) outputData
    else fill (scaled this (variateForLargeShape this)) outputData
  else fill (scaled this (variateForLargeShape this)) outputData.

End WithVariates.
End WithCollaborators.

End GammaRand.

(** ** [BinomialRand] *)

(** [BetaRand], the prior of the Bayesian estimator. *)
Class BetaRandOps := {
  BetaRand : Type;
  Beta_getAlpha : BetaRand -> double;
  Beta_getBeta : BetaRand -> double;
  Beta_setParameters : BetaRand -> double -> double -> BetaRand;
  Beta_Mean : BetaRand -> double
}.

Module BinomialRand.

Inductive GENERATOR_ID := BERNOULLI_SUM | WAITING | REJECTION.

Section WithCollaborators.
Context {PF : Platform} {RM : RandMathOps} {CS : Constants} {Rng : Type} {VR : Variates Rng}.

(** The numeric members are [double] except the count [n]. *)
Record t := {
  n : Z;
  p : double; q : double; np : double;
  delta1 : double; delta2 : double;
  sigma1 : double; sigma2 : double; c : double;
  a1 : double; a2 : double; a3 : double; a4 : double;
  coefa3 : double; coefa4 : double;
  minpq : double; pFloor : double;
  logPFloor : double; logQFloor : double;
  pRes : double;
  npFloor : double; nqFloor : double;
  logPnpInv : double;
  G : GeometricRand
}.

Definition getIdOfUsedGenerator (this : t) : GENERATOR_ID :=
  if (n this <=? 3)%Z
     || ((n this <=? 13)%Z && Dbl.gt (minpq this) (0.025 * Dbl.of_int (n this + 6)))
     || ((n this <=? 200)%Z && RandMath.areClose (p this) 0.5)
  then BERNOULLI_SUM
  else if Dbl.le (npFloor this) 12 || (Dbl.gt (pRes this) 0 && Dbl.le (npFloor this) 16)
  then WAITING
  else REJECTION.

(** [logProbFloor] on the members it reads. *)
Definition logProbFloor_of (n : Z) (logPFloor logQFloor : double) (k : Z) : double :=
  let y := ld_to_double (ld_log (binomialCoef n k)) in
  let y := y + Dbl.of_int k * logPFloor in
  let y := y + Dbl.of_int (n - k) * logQFloor in
  y.

Definition logProbFloor (this : t) (k : Z) : double :=
  logProbFloor_of (n this) (logPFloor this) (logQFloor this) k.

Definition setGeneratorConstants (this : t) : option t :=
  let n := n this in
  let minpq := Dbl.min (p this) (q this) in
  let npFloor := Dbl.floor (Dbl.of_int n * minpq) in
  let pFloor := npFloor / Dbl.of_int n in
  let pRes := if RandMath.areClose npFloor (Dbl.of_int n * minpq) then 0.0
              else minpq - pFloor in
  let this1 :=
    {| n := n; p := p this; q := q this; np := np this;
       delta1 := delta1 this; delta2 := delta2 this;
       sigma1 := sigma1 this; sigma2 := sigma2 this; c := c this;
       a1 := a1 this; a2 := a2 this; a3 := a3 this; a4 := a4 this;
       coefa3 := coefa3 this; coefa4 := coefa4 this;
       minpq := minpq; pFloor := pFloor;
       logPFloor := logPFloor this; logQFloor := logQFloor this;
       pRes := pRes;
       npFloor := npFloor; nqFloor := nqFloor this;
       logPnpInv := logPnpInv this;
       G := G this |} in
  match getIdOfUsedGenerator this1 with
  | BERNOULLI_SUM => Some this1
  | WAITING =>
      Some {| n := n; p := p this; q := q this; np := np this;
              delta1 := delta1 this; delta2 := delta2 this;
              sigma1 := sigma1 this; sigma2 := sigma2 this; c := c this;
              a1 := a1 this; a2 := a2 this; a3 := a3 this; a4 := a4 this;
              coefa3 := coefa3 this; coefa4 := coefa4 this;
              minpq := minpq; pFloor := pFloor;
              logPFloor := logPFloor this; logQFloor := logQFloor this;
              pRes := pRes;
              npFloor := npFloor; nqFloor := nqFloor this;
              logPnpInv := logPnpInv this;
              G := Geometric_setProbability (G this) minpq |}
  | REJECTION =>
      let nqFloor := Dbl.of_int n - npFloor in
      let qFloor := 1.0 - pFloor in
      let G := if Dbl.gt pRes 0 then Geometric_setProbability (G this) (pRes / qFloor)
               else G this in
      (* set deltas *)
      let npq := npFloor * qFloor in
      let coef := 128.0 * Dbl.of_int n / M_PI in
      let delta1 := coef * pFloor / (81.0 * qFloor) in
      let delta1 := npq * log delta1 in
      let delta1 := if Dbl.gt delta1 1.0 then sqrt delta1 else 1.0 in
      let delta2 := coef * qFloor / pFloor in
      let delta2 := npq * log delta2 in
      let delta2 := if Dbl.gt delta2 1.0 then sqrt delta2 else 1.0 in
      (* set sigmas and c *)
      let npqSqrt := sqrt npq in
      let sigma1 := npqSqrt * (1.0 + 0.25 * delta1 / npFloor) in
      let sigma2 := npqSqrt * (1.0 + 0.25 * delta2 / nqFloor) in
      let c := 2.0 * delta1 / npFloor in
      (* set a's *)
      let a1 := 0.5 * exp c * sigma1 * M_SQRT2PI in
      let a2 := 0.5 * sigma2 * M_SQRT2PI in
      let a2 := a2 + a1 in
      let coefa3 := 0.5 * delta1 / (sigma1 * sigma1) in
      let a3 := 1.0 / nqFloor - coefa3 in
      let a3 := a3 * delta1 in
      let a3 := exp a3 in
      let a3 := a3 / coefa3 in
      let a3 := a3 + a2 in
      let coefa4 := 0.5 * delta2 / (sigma2 * sigma2) in
      let a4 := exp (- delta2 * coefa4) / coefa4 in
      let a4 := a4 + a3 in
      let logPFloor := log pFloor in
      let logQFloor := if Dbl.eq pFloor qFloor then logPFloor else log qFloor in
      match Dbl.to_int npFloor with
      | None => None
      | Some k =>
          Some {| n := n; p := p this; q := q this; np := np this;
                  delta1 := delta1; delta2 := delta2;
                  sigma1 := sigma1; sigma2 := sigma2; c := c;
                  a1 := a1; a2 := a2; a3 := a3; a4 := a4;
                  coefa3 := coefa3; coefa4 := coefa4;
                  minpq := minpq; pFloor := pFloor;
                  logPFloor := logPFloor; logQFloor := logQFloor;
                  pRes := pRes;
                  npFloor := npFloor; nqFloor := nqFloor;
                  logPnpInv := logProbFloor_of n logPFloor logQFloor k;
                  G := G |}
      end
  end.

Definition setParameters (this : t) (number : Z) (probability : double) : option t :=
  let n := Z.max number 1 in
  let p := Dbl.min probability 1.0 in
  let p := Dbl.max p 0.0 in
  let q := 1.0 - p in
  let np := Dbl.of_int n * p in
  setGeneratorConstants
    {| n := n; p := p; q := q; np := np;
       delta1 := delta1 this; delta2 := delta2 this;
       sigma1 := sigma1 this; sigma2 := sigma2 this; c := c this;
       a1 := a1 this; a2 := a2 this; a3 := a3 this; a4 := a4 this;
       coefa3 := coefa3 this; coefa4 := coefa4 this;
       minpq := minpq this; pFloor := pFloor this;
       logPFloor := logPFloor this; logQFloor := logQFloor this;
       pRes := pRes this;
       npFloor := npFloor this; nqFloor := nqFloor this;
       logPnpInv := logPnpInv this;
       G := G this |}.

Definition F (this : t) (k : Z) : double :=
  if (k <? 0)%Z then 0.0
  else if (k >=? n this)%Z then 1.0
  else regularizedBetaFun (q this) (Dbl.of_int (n this - k)) (Dbl.of_int (1 + k)).

Definition Mean (this : t) : double := np this.
Definition Variance (this : t) : double := np this * q this.

(** The passes allowed to a loop that the source leaves uncapped. *)
Variable fuel : positive.

Definition variateRejection (this : t) : Gen Rng Z :=
  loop 1000000000
       (fun '(iter, X, V) =>
          U <- draw (Uniform_variate 0 (a4 this)) ;;
          r <- (if Dbl.le U (a1 this) then
                  N <- draw Normal_standardVariate ;;
                  let Y := sigma1 this * Dbl.fabs N in
                  let reject := Dbl.ge Y (delta1 this) in
                  if negb reject then
                    W <- draw Exponential_standardVariate ;;
                    ret (reject, Dbl.floor Y, - W - 0.5 * N * N + c this)
                  else ret (reject, X, V)
                else if Dbl.le U (a2 this) then
                  N <- draw Normal_standardVariate ;;
                  let Y := sigma2 this * Dbl.fabs N in
                  let reject := Dbl.ge Y (delta2 this) in
                  if negb reject then
                    W <- draw Exponential_standardVariate ;;
                    ret (reject, Dbl.floor (- Y), - W - 0.5 * N * N)
                  else ret (reject, X, V)
                else if Dbl.le U (a3 this) then
                  W1 <- draw Exponential_standardVariate ;;
                  W2 <- draw Exponential_standardVariate ;;
                  let Y := delta1 this + W1 / coefa3 this in
                  ret (false, Dbl.floor Y,
                       - W2 - coefa3 this * Y + delta1 this / nqFloor this)
                else
                  W1 <- draw Exponential_standardVariate ;;
                  W2 <- draw Exponential_standardVariate ;;
                  let Y := delta2 this + W1 / coefa4 this in
                  ret (false, Dbl.floor (- Y), - W2 - coefa4 this * Y)) ;;
          let '(reject, X, V) := r in
          let X := X + npFloor this in
          if negb reject && Dbl.ge X 0 && Dbl.le X (Dbl.of_int (n this)) then
            k <- as_int X ;;
            if Dbl.le V (logProbFloor this k - logPnpInv this) then ret (Leave k)
            else
              let iter := (iter + 1)%Z in
              if Dbl.lt (Dbl.of_int iter) 1e9 then ret (Again (iter, X, V))
              else ret (Leave (-1)%Z)
          else
            let iter := (iter + 1)%Z in
            if Dbl.lt (Dbl.of_int iter) 1e9 then ret (Again (iter, X, V))
            else ret (Leave (-1)%Z))
       (0%Z, indeterminate, indeterminate).

Definition variateWaiting (this : t) (number : Z) : Gen Rng Z :=
  loop fuel
       (fun '(X, sum) =>
          k <- draw (Geometric_variate (G this)) ;;
          sum <- as_int (Dbl.of_int sum + (Dbl.of_int k + 1.0)) ;;
          let X := (X + 1)%Z in
          if (sum <=? number)%Z then ret (Again (X, sum))
          else ret (Leave X))
       ((-1)%Z, 0%Z).

(** [for (int i = 0; i != number; ++i) var += draw();] *)
Definition sumOfBernoulli (number : Z) (bernoulli : Gen Rng Z) : Gen Rng Z :=
  loop int_fuel
       (fun '(i, var) =>
          if negb (i =? number)%Z then
            x <- bernoulli ;;
            ret (Again ((i + 1)%Z, (var + x)%Z))
          else ret (Leave var))
       (0%Z, 0%Z).

Definition variateBernoulliSum (number : Z) (probability : double) : Gen Rng Z :=
  if RandMath.areClose probability 0.5
  then sumOfBernoulli number (draw Bernoulli_standardVariate)
  else sumOfBernoulli number (draw (Bernoulli_variate probability)).

Definition variate (this : t) : Gen Rng Z :=
  match getIdOfUsedGenerator this with
  | WAITING =>
      var <- variateWaiting this (n this) ;;
      let var := Dbl.of_int var in
      as_int (if Dbl.le (p this) 0.5 then var else Dbl.of_int (n this) - var)
  | REJECTION =>
      Y <- variateRejection this ;;
      Y <- (if Dbl.gt (pRes this) 0
            then W <- variateWaiting this (n this - Y) ;; ret (Y + W)%Z
            else ret Y) ;;
      ret (if Dbl.gt (p this) 0.5 then (n this - Y)%Z else Y)
  | BERNOULLI_SUM => variateBernoulliSum (n this) (p this)
  end.

Definition sample (this : t) (outputData : list Z) : Gen Rng (list Z) :=
  if Dbl.eq (p this) 0.0 then ret (map (fun _ => 0%Z) outputData)
  else if RandMath.areClose (p this) 1.0 then ret (map (fun _ => n this) outputData)
  else
    match getIdOfUsedGenerator this with
    | WAITING =>
        if Dbl.le (p this) 0.5 then fill (variateWaiting this (n this)) outputData
        else fill (W <- variateWaiting this (n this) ;; ret (n this - W)%Z) outputData
    | REJECTION =>
        outputData <- fill (variateRejection this) outputData ;;
        outputData <- (if Dbl.gt (pRes this) 0
                       then refill (fun var => W <- variateWaiting this (n this - var) ;;
                                               ret (var + W)%Z) outputData
                       else ret outputData) ;;
        if Dbl.gt (p this) 0.5 then ret (map (fun var => (n this - var)%Z) outputData)
        else ret outputData
    | BERNOULLI_SUM => fill (variateBernoulliSum (n this) (p this)) outputData
    end.

(** [for (int var : sample) if (var < 0 || var > n) return false;] on a
    vector of [double]: each element is converted to [int] first. *)
Fixpoint checkValidity (this : t) (sample : list double) : option bool :=
  match sample with
  | [] => Some true
  | x :: rest =>
      match Dbl.to_int x with
      | None => None
      | Some var =>
          if (var <? 0)%Z || (var >? n this)%Z then Some false
          else checkValidity this rest
      end
  end.

Definition fitProbabilityMLE (this : t) (sample : list double) : option (bool * t) :=
  match checkValidity this sample with
  | None => None
  | Some false => Some (false, this)
  | Some true =>
      match setParameters this (n this) (sampleMean sample / Dbl.of_int (n this)) with
      | None => None
      | Some this' => Some (true, this')
      end
  end.

Definition fitProbabilityMM (this : t) (sample : list double) : option (bool * t) :=
  fitProbabilityMLE this sample.

Context {BR : BetaRandOps}.

Definition fitProbabilityBayes (this : t) (sample : list double) (priorDistribution : BetaRand)
  : option (bool * t * BetaRand) :=
  let N := Z.of_nat (length sample) in
  let sum := sum sample in
  let alpha := Beta_getAlpha priorDistribution in
  let beta := Beta_getBeta priorDistribution in
  let priorDistribution :=
    Beta_setParameters priorDistribution (sum + alpha)
                       (Dbl.of_int (N * n this) - sum + beta) in
  match setParameters this (n this) (Beta_Mean priorDistribution) with
  | None => None
  | Some this' => Some (true, this', priorDistribution)
  end.

End WithCollaborators.

End BinomialRand.

(** ** The cumulative function in exact arithmetic *)

Module ExactBinomial.

(** The mass of [i] successes among [n] trials of probability [p]. *)
Definition term (n : nat) (p : R) (i : nat) : R :=
  (C n i * p ^ i * (1 - p) ^ (n - i))%R.

(** Modelled from the spec: [RandMath::regularizedBetaFun] is declared in
    [RandMath.h] without a body; the specification calls it the regularized
    incomplete beta function, the normalized special function under the
    Beta-family cumulative distributions.  For whole [a >= 1] and [b >= 1]
    that function is the finite sum of [C(a+b-1, i) (1-x)^i x^(a+b-1-i)] over
    [i = 0 .. b-1], here over the real numbers. *)
Definition regularizedBetaFun (x : R) (a b : nat) : R :=
  sum_f_R0 (fun i => C (a + b - 1) i * (1 - x) ^ i * x ^ (a + b - 1 - i))%R (b - 1).

(** [BinomialRand::F] over the real numbers, with [q = 1 - p]. *)
Definition F (n : Z) (p : R) (k : Z) : R :=
  if (k <? 0)%Z then 0%R
  else if (k >=? n)%Z then 1%R
  else regularizedBetaFun (1 - p) (Z.to_nat (n - k)) (Z.to_nat (1 + k)).

End ExactBinomial.

(** ** A generator that counts its draws *)

Module Counting.
Section Counting.
Context {Rng : Type} (base : Variates Rng).

Definition tick {A} (f : Rng -> A * Rng) (s : Rng * nat) : A * (Rng * nat) :=
  (fst (f (fst s)), (snd (f (fst s)), S (snd s))).

(** Every generator of [base], with the number of draws made so far
    carried beside the state. *)
Definition variates : Variates (Rng * nat) := {|
  Uniform_standardVariate := tick (@Uniform_standardVariate _ base);
  Uniform_variate := fun a b => tick (@Uniform_variate _ base a b);
  Normal_standardVariate := tick (@Normal_standardVariate _ base);
  Exponential_standardVariate := tick (@Exponential_standardVariate _ base);
  Bernoulli_standardVariate := tick (@Bernoulli_standardVariate _ base);
  Bernoulli_variate := fun p => tick (@Bernoulli_variate _ base p);
  GeometricRand := @GeometricRand _ base;
  Geometric_setProbability := @Geometric_setProbability _ base;
  Geometric_variate := fun G => tick (@Geometric_variate _ base G)
|}.

(** A computation that never lowers the count of draws. *)
Definition keeps {A} (m : Gen (Rng * nat) A) : Prop :=
  forall s a s', m s = Some (a, s') -> (snd s <= snd s')%nat.

(** A computation that makes at least one draw before it returns. *)
Definition advances {A} (m : Gen (Rng * nat) A) : Prop :=
  forall s a s', m s = Some (a, s') -> (snd s < snd s')%nat.

End Counting.
End Counting.

(** ** Reference collaborators

    Executable collaborators on which the translated code can be run: series
    for the transcendental functions, [long double] taken to be [double] (as
    on platforms where the two coincide), textbook forms of the [RandMath]
    functions, and generators that replay a tape of recorded draws. *)

Module Reference.

Fixpoint exp_terms (k : nat) (i : double) (x term acc : double) : double :=
  match k with
  | O => acc
  | S k' => let term := term * x / i in exp_terms k' (i + 1) x term (acc + term)
  end.

(** [e^x] as [(e^(x / 1024)) ^ 1024], the inner value by its Taylor series. *)
Definition exp_series (x : double) : double :=
  let y := exp_terms 20 1 (x / 1024) 1 1 in
  Nat.iter 10 (fun z => z * z) y.

Fixpoint atanh_terms (k : nat) (i : double) (t2 term acc : double) : double :=
  match k with
  | O => acc
  | S k' => let term := term * t2 in atanh_terms k' (i + 2) t2 term (acc + term / i)
  end.

(** [ln x] as [4096 * ln (x ^ (1/4096))], the inner value by the series of
    [2 * atanh ((y - 1) / (y + 1))]. *)
Definition log_series (x : double) : double :=
  if Dbl.lt x 0 then NAN
  else if Dbl.eq x 0 then neg_infinity
  else
    let y := Nat.iter 12 sqrt x in
    let t := (y - 1) / (y + 1) in
    4096 * (2 * atanh_terms 20 3 (t * t) t t).

Definition pow_series (x y : double) : double :=
  if Dbl.eq y 0 then 1
  else if Dbl.eq x 0 then 0
  else exp_series (y * log_series x).

(** Stirling's series at [x + 10], brought back by the recurrence. *)
Definition tgamma_stirling (x : double) : double :=
  let z := x + 10 in
  let stirling :=
    sqrt (6.283185307179586 / z) * exp_series (z * (log_series z - 1))
    * (1 + 1 / (12 * z) + 1 / (288 * z * z)) in
  let below :=
    fold_left (fun acc i => acc * (x + Dbl.of_int (Z.of_nat i))) (seq 0 10) 1 in
  stirling / below.

#[export] Instance platform : Platform := {|
  log := log_series;
  exp := exp_series;
  pow := pow_series;
  tgamma := tgamma_stirling;
  ldouble := double;
  ld_of_double := fun x => x;
  ld_to_double := fun x => x;
  ld_div := fun x y => x / y;
  ld_log := log_series;
  indeterminate := 0
|}.

#[export] Instance constants : Constants := {|
  M_PI := 3.14159265358979323846;
  M_1_E := 0.36787944117144232160;
  M_SQRT2 := 1.41421356237309504880;
  M_SQRT3 := 1.73205080756887729353;
  M_SQRT2PI := 2.50662827463100050242
|}.

(** [n!] for a whole [n >= 0]; NaN otherwise. *)
Definition factorial_product (n : double) : double :=
  match Dbl.to_int n with
  | Some k =>
      if (k <? 0)%Z || negb (Dbl.eq (Dbl.of_int k) n) then NAN
      else fold_left (fun acc i => acc * Dbl.of_int (Z.of_nat i)) (seq 1 (Z.to_nat k)) 1
  | None => NAN
  end.

(** [C(n, k)] as the product of [(n - k + i) / i] for [i = 1 .. k]. *)
Definition binomialCoef_product (n k : Z) : double :=
  if (k <? 0)%Z || (n <? k)%Z then 0
  else fold_left (fun acc i => acc * Dbl.of_int (n - k + Z.of_nat i) / Dbl.of_int (Z.of_nat i))
                 (seq 1 (Z.to_nat k)) 1.

Definition powi (x : double) (k : nat) : double := Nat.iter k (fun z => z * x) 1.

(** [ExactBinomial.regularizedBetaFun] in [double] arithmetic, for whole
    [a >= 1] and [b >= 1]. *)
Definition regularizedBetaFun_sum (x a b : double) : double :=
  match Dbl.to_int a, Dbl.to_int b with
  | Some a, Some b =>
      let N := (a + b - 1)%Z in
      fold_left (fun acc i =>
                   acc + binomialCoef_product N (Z.of_nat i)
                         * powi (1 - x) i * powi x (Z.to_nat N - i))
                (seq 0 (Z.to_nat b)) 0
  | _, _ => NAN
  end.

(** Newton's iteration [x <- x - f(x) / f'(x)] until [|f(x)| < epsilon];
    failure when a value stops being finite or after [steps] iterations. *)
Fixpoint newton (steps : nat) (funPtr derPtr : double -> double) (root : double)
  : bool * double :=
  let fx := funPtr root in
  if negb (is_finite fx) then (false, root)
  else if Dbl.lt (Dbl.fabs fx) 1e-10 then (true, root)
  else
    match steps with
    | O => (false, root)
    | S steps' =>
        let next := root - fx / derPtr root in
        if is_finite next then newton steps' funPtr derPtr next else (false, root)
    end.

(** Simpson's rule on 64 panels. *)
Definition simpson (funPtr : double -> double) (a b : double) : double :=
  let h := (b - a) / 64 in
  let inner :=
    fold_left (fun acc i =>
                 let x := a + Dbl.of_int (Z.of_nat i) * h in
                 acc + (if Nat.even i then 2 else 4) * funPtr x)
              (seq 1 63) 0 in
  h / 3 * (funPtr a + inner + funPtr b).

Definition sum_fold (sample : list double) : double := fold_left add sample 0.

#[export] Instance randMath : RandMathOps := {|
  factorial := factorial_product;
  binomialCoef := binomialCoef_product;
  regularizedBetaFun := regularizedBetaFun_sum;
  findRoot := newton 100;
  integral := fun funPtr a b _ => simpson funPtr a b;
  sum := sum_fold;
  sampleMean := fun sample => sum_fold sample / Dbl.of_int (Z.of_nat (length sample))
|}.

(** The tape of recorded draws; a draw from an empty tape is 0. *)
Definition Tape := list double.

Definition replay {A} (read : double -> A) (tape : Tape) : A * Tape :=
  match tape with
  | [] => (read 0, [])
  | x :: rest => (read x, rest)
  end.

Definition whole (x : double) : Z :=
  match Dbl.to_int x with Some z => z | None => 0%Z end.

#[export] Instance variates : Variates Tape := {|
  Uniform_standardVariate := replay (fun x => x);
  Uniform_variate := fun a b => replay (fun x => a + (b - a) * x);
  Normal_standardVariate := replay (fun x => x);
  Exponential_standardVariate := replay (fun x => x);
  Bernoulli_standardVariate := replay (fun x => if Dbl.lt x 0.5 then 1%Z else 0%Z);
  Bernoulli_variate := fun p => replay (fun x => if Dbl.lt x p then 1%Z else 0%Z);
  GeometricRand := double;
  Geometric_setProbability := fun _ p => p;
  Geometric_variate := fun _ => replay whole
|}.

(** A Beta prior as its two shapes, non-positive ones clamped to 1. *)
#[export] Instance betaRand : BetaRandOps := {|
  BetaRand := double * double;
  Beta_getAlpha := fst;
  Beta_getBeta := snd;
  Beta_setParameters := fun _ a b =>
    (if Dbl.le a 0 then 1 else a, if Dbl.le b 0 then 1 else b);
  Beta_Mean := fun d => fst d / (fst d + snd d)
|}.

(** An instance before its first configuration. *)
Definition gamma0 : GammaRand.t :=
  {| GammaRand.alpha := 0; GammaRand.theta := 0; GammaRand.beta := 0;
     GammaRand.alphaInv := 0; GammaRand.cdfCoef := 0; GammaRand.pdfCoef := 0;
     GammaRand.variateCoef := 0;
     GammaRand.m := 0; GammaRand.s := 0; GammaRand.s_2 := 0; GammaRand.d := 0;
     GammaRand.b := 0; GammaRand.w := 0; GammaRand.v := 0; GammaRand.c := 0 |}.

Definition binomial0 {Rng} {VR : Variates Rng} (G0 : GeometricRand) : BinomialRand.t :=
  {| BinomialRand.n := 0;
     BinomialRand.p := 0; BinomialRand.q := 0; BinomialRand.np := 0;
     BinomialRand.delta1 := 0; BinomialRand.delta2 := 0;
     BinomialRand.sigma1 := 0; BinomialRand.sigma2 := 0; BinomialRand.c := 0;
     BinomialRand.a1 := 0; BinomialRand.a2 := 0; BinomialRand.a3 := 0; BinomialRand.a4 := 0;
     BinomialRand.coefa3 := 0; BinomialRand.coefa4 := 0;
     BinomialRand.minpq := 0; BinomialRand.pFloor := 0;
     BinomialRand.logPFloor := 0; BinomialRand.logQFloor := 0;
     BinomialRand.pRes := 0;
     BinomialRand.npFloor := 0; BinomialRand.nqFloor := 0;
     BinomialRand.logPnpInv := 0;
     BinomialRand.G := G0 |}.

(** The instance that [BinomialRand(number, probability)] constructs. *)
Definition configured {Rng} {VR : Variates Rng} (G0 : GeometricRand)
           (number : Z) (probability : double) : BinomialRand.t :=
  match BinomialRand.setParameters (binomial0 G0) number probability with
  | Some this => this
  | None => binomial0 G0
  end.

(** The replayed generators with their draws counted. *)
Definition counted : Variates (Tape * nat) := Counting.variates variates.

(** The exponential distribution of rate 1. *)
Definition exponential : ContinuousDistribution.t :=
  {| ContinuousDistribution.f := fun x => if Dbl.lt x 0 then 0 else exp_series (- x);
     ContinuousDistribution.F := fun x => if Dbl.lt x 0 then 0 else 1 - exp_series (- x);
     ContinuousDistribution.Mean := 1;
     ContinuousDistribution.Variance := 1 |}.

End Reference.

(** ** The rest of the translated files *)

(** More of [RandMath] whose bodies are not in [RandMath.h], and the
    [long double] sums of the estimators.  [findMin] takes its result by
    reference: the model returns the success flag and the final value. *)
Class RandMathMore {PF : Platform} := {
  sampleVariance : list double -> double -> double;
  digamma : double -> double;
  trigamma : double -> double;
  findMin : (double -> double) -> double -> double -> double -> bool * double;
  ld_add : ldouble -> ldouble -> ldouble;
  ld_sub : ldouble -> ldouble -> ldouble
}.

(** *** [RandMath.h]: the table of factorials *)

Module FactorialTable.




End FactorialTable.

(** *** [ContinuousDistribution]: likelihoods and the mode *)

Module ContinuousDistributionMore.
Import ContinuousDistribution.

Section WithRandMath.
Context {PF : Platform} {RM : RandMathOps} {RMM : RandMathMore}.

(** [for (const double & var : sample) res *= f(var);] from [res = 1.0]. *)
Definition likelihood (this : t) (sample : list double) : double :=
  fold_left (fun res var => res * f this var) sample 1.0.

(** [for (const double & var : sample) res += std::log(f(var));] from
    [res = 0.0]. *)
Definition loglikelihood (this : t) (sample : list double) : double :=
  fold_left (fun res var => res + log (f this var)) sample 0.0.

(** The variables of the localization in [Mode]: the bracket [a], [b] and
    the point [mu] between them, with the density at each. *)
Record bracket := {
  a : double; b : double; mu : double;
  fa : double; fb : double; fmu : double
}.

(** The starting point of [Mode]: the mean, else the median, else 0. *)
Definition modeStart (this : t) : double :=
  let mu := Mean this in
  if Dbl.isnan mu || Dbl.isinf mu then
    let mu := Median this in
    if Dbl.isnan mu || Dbl.isinf mu then 0.0 else mu
  else mu.

(** The step of [Mode]: ten variances, else 100. *)
Definition modeStep (this : t) : double :=
  let step := 10 * Variance this in
  if Dbl.isnan step || Dbl.isinf step then 100 else step.

(** [while (fa > fmu) { b = mu; fb = fmu; mu = a; fmu = fa; a -= step; fa = f(a); }] *)
Definition moveLeft (fuel : positive) (this : t) (step : double) (x : bracket)
  : Gen unit bracket :=
  loop fuel
       (fun x : bracket =>
          if Dbl.gt (fa x) (fmu x) then
            let a' := a x - step in
            ret (Again {| a := a'; b := mu x; mu := a x;
                          fa := f this a'; fb := fmu x; fmu := fa x |})
          else ret (Leave x))
       x.

(** [while (fb > fmu) { a = mu; mu = b; fmu = fb; b += step; fb = f(b); }] *)
Definition moveRight (fuel : positive) (this : t) (step : double) (x : bracket)
  : Gen unit bracket :=
  loop fuel
       (fun x : bracket =>
          if Dbl.gt (fb x) (fmu x) then
            let b' := b x + step in
            ret (Again {| a := mu x; b := b'; mu := b x;
                          fa := fa x; fb := f this b'; fmu := fb x |})
          else ret (Leave x))
       x.

(** The localization of [Mode]: the bracket handed to [findMin]. *)
Definition localize (fuel : positive) (this : t) : option bracket :=
  let mu := modeStart this in
  let step := modeStep this in
  let a := mu - step in
  let b := mu + step in
  let start := {| a := a; b := b; mu := mu;
                  fa := f this a; fb := f this b; fmu := f this mu |} in
  match (x <- moveLeft fuel this step start ;; moveRight fuel this step x)%gen tt with
  | Some (x, _) => Some x
  | None => None
  end.

Definition Mode (fuel : positive) (this : t) : option double :=
  match localize fuel this with
  | Some x => Some (snd (findMin (fun x => - f this x) (a x) (b x) 0))
  | None => None
  end.

End WithRandMath.

End ContinuousDistributionMore.

(** *** [GammaRand]: moments and estimators; [ChiSquaredRand]; [ErlangRand] *)

(** The getters that [GammaRand.h] defines inline; the header of this
    version of the class is not among the translated sources. *)
Class GammaRandGetters := {
  getShape : GammaRand.t -> double;
  getScale : GammaRand.t -> double;
  getRate : GammaRand.t -> double
}.

Module GammaRandMore.
Import GammaRand.

Section WithCollaborators.
Context {PF : Platform} {RM : RandMathOps} {CS : Constants} {RMM : RandMathMore}
        {GG : GammaRandGetters}.

Definition Mode (this : t) : double :=
  if Dbl.lt (alpha this) 1 then 0 else (alpha this - 1) * theta this.

Definition Skewness (this : t) : double := 2.0 / sqrt (alpha this).

Definition ExcessKurtosis (this : t) : double := 6.0 * alphaInv this.

(** [for (double var : sample) if (var < 0) return false;] *)
Fixpoint checkValidity (sample : list double) : bool :=
  match sample with
  | [] => true
  | var :: rest => if Dbl.lt var 0 then false else checkValidity rest
  end.

Definition fitScaleMLE (this : t) (sample : list double) : bool * t :=
  if negb (checkValidity sample) then (false, this)
  else (true, setParameters this (alpha this) (sampleMean sample / alpha this)).

(** [for (double var : sample) logAverage += std::log(var);] in
    [long double], from [0.0L]. *)
Definition sumOfLogs (sample : list double) : ldouble :=
  fold_left (fun acc var => ld_add acc (ld_of_double (log var))) sample (ld_of_double 0.0).

Definition fitShapeAndScaleMLE (this : t) (sample : list double) : bool * t :=
  let n := Z.of_nat (length sample) in
  if (n <=? 0)%Z || negb (checkValidity sample) then (false, this)
  else
    (* calculate averages *)
    let average := sampleMean sample in
    let logAverage := ld_div (sumOfLogs sample) (ld_of_double (Dbl.of_int n)) in
    (* calculate initial guess for shape *)
    let s := ld_to_double (ld_sub (ld_of_double (log average)) logAverage) in
    let sm3 := s - 3.0 in
    let sp12 := 12.0 * s in
    let shape := sm3 * sm3 + sp12 + sp12 in
    let shape := sqrt shape in
    let shape := shape - sm3 in
    let shape := shape / sp12 in
    let '(found, shape) :=
      findRoot (fun x => log x - digamma x - s) (fun x => 1.0 / x - trigamma x) shape in
    if negb found then (false, this)
    else (true, setParameters this shape (average / shape)).

Definition fitShapeMM (this : t) (sample : list double) : bool * t :=
  if negb (checkValidity sample) then (false, this)
  else (true, setParameters this (sampleMean sample / theta this) (theta this)).

Definition fitScaleMM (this : t) (sample : list double) : bool * t :=
  fitScaleMLE this sample.

Definition fitShapeAndScaleMM (this : t) (sample : list double) : bool * t :=
  if negb (checkValidity sample) then (false, this)
  else
    let mu1 := sampleMean sample in
    let var := sampleVariance sample mu1 in
    let shape := mu1 * mu1 / var in
    (true, setParameters this shape (mu1 / shape)).

(** The result is the success flag, the instance and the prior. *)
Definition fitRateBayes (this : t) (sample : list double) (priorDistribution : t)
  : bool * t * t :=
  let n := Z.of_nat (length sample) in
  if (n <=? 0)%Z || negb (checkValidity sample) then (false, this, priorDistribution)
  else
    let alpha0 := getShape priorDistribution in
    let beta0 := getRate priorDistribution in
    let newAlpha := alpha this * Dbl.of_int n + alpha0 in
    let newBeta := sum sample + beta0 in
    let priorDistribution := setParameters priorDistribution newAlpha (1.0 / newBeta) in
    (true, setParameters this (alpha this) (1.0 / Mean priorDistribution), priorDistribution).

End WithCollaborators.

(** The standard-exponential draws that [k] passes of the integer-shape
    loop add up, in order. *)
Fixpoint sumOfExponentialDraws {Rng} {VR : Variates Rng} (k : nat) (rv : double) (g : Rng)
  : double * Rng :=
  match k with
  | O => (rv, g)
  | S k' =>
      sumOfExponentialDraws k' (rv + fst (Exponential_standardVariate g))
                            (snd (Exponential_standardVariate g))
  end.

End GammaRandMore.

Module ChiSquaredRand.
Section WithCollaborators.
Context {PF : Platform} {RM : RandMathOps} {CS : Constants}.

Definition setDegree (this : GammaRand.t) (degree : Z) : GammaRand.t :=
  GammaRand.setParameters this
    (if (degree <? 1)%Z then 0.5 else 0.5 * Dbl.of_int degree) 2.

(** [static_cast<int>(alpha + alpha)] *)
Definition getDegree (this : GammaRand.t) : option Z :=
  Dbl.to_int (GammaRand.alpha this + GammaRand.alpha this).

End WithCollaborators.
End ChiSquaredRand.

Module ErlangRand.
Section WithCollaborators.
Context {PF : Platform} {RM : RandMathOps} {CS : Constants} {GG : GammaRandGetters}.

Definition setParameters (this : GammaRand.t) (shape : Z) (rate : double) : GammaRand.t :=
  GammaRand.setParameters this (Dbl.of_int (Z.max shape 1)) (1.0 / rate).

(** [static_cast<int>(GammaRand::getShape())] *)
Definition getShape (this : GammaRand.t) : option Z := Dbl.to_int (getShape this).

Definition getRate (this : GammaRand.t) : double := 1.0 / getScale this.

End WithCollaborators.
End ErlangRand.

(** *** [BinomialRand]: the static draw and the rounded moments *)

Module BinomialRandMore.
Import BinomialRand.

Section WithCollaborators.
Context {PF : Platform} {RM : RandMathOps} {CS : Constants} {Rng : Type} {VR : Variates Rng}.

(** [BinomialRand::variate(int number, double probability)] *)
Definition variate_static (number : Z) (probability : double) : Gen Rng Z :=
  variateBernoulliSum number probability.

Definition Median (this : t) : double := Dbl.round (np this).

(** [int Mode()]: [std::round(np + p)] converted to [int]. *)
Definition Mode (this : t) : option Z := Dbl.to_int (Dbl.round (np this + p this)).

Definition Skewness (this : t) : double := (q this - p this) / sqrt (np this * q this).

Definition ExcessKurtosis (this : t) : double :=
  let y := 1.0 / (p this * q this) in
  let y := y - 6.0 in
  y / Dbl.of_int (n this).

(** The draws that [n] passes of the Bernoulli sum add up, in order. *)
Fixpoint sumOfDraws (k : nat) (bernoulli : Rng -> Z * Rng) (total : Z) (g : Rng) : Z * Rng :=
  match k with
  | O => (total, g)
  | S k' => sumOfDraws k' bernoulli (total + fst (bernoulli g))%Z (snd (bernoulli g))
  end.

End WithCollaborators.

End BinomialRandMore.

(** *** Reference collaborators for the rest *)

Module ReferenceMore.
Import Reference.

(** The second central moment about [mean]. *)
Definition sampleVariance_fold (sample : list double) (mean : double) : double :=
  fold_left (fun acc x => acc + (x - mean) * (x - mean)) sample 0
  / Dbl.of_int (Z.of_nat (length sample)).

(** The asymptotic series at [x + 10], brought back by the recurrence. *)
Definition digamma_series (x : double) : double :=
  let z := x + 10 in
  let z2 := z * z in
  let tail := log_series z - 1 / (2 * z) - 1 / (12 * z2) + 1 / (120 * z2 * z2) in
  fold_left (fun acc i => acc - 1 / (x + Dbl.of_int (Z.of_nat i))) (seq 0 10) tail.

Definition trigamma_series (x : double) : double :=
  let z := x + 10 in
  let z2 := z * z in
  let tail := 1 / z + 1 / (2 * z2) + 1 / (6 * z2 * z) - 1 / (30 * z2 * z2 * z) in
  fold_left (fun acc i =>
               let y := x + Dbl.of_int (Z.of_nat i) in acc + 1 / (y * y))
            (seq 0 10) tail.

(** Ternary search on [a, b], a fixed number of cuts. *)
Fixpoint ternary (steps : nat) (funPtr : double -> double) (a b : double) : double :=
  match steps with
  | O => (a + b) / 2
  | S steps' =>
      let x1 := a + (b - a) / 3 in
      let x2 := b - (b - a) / 3 in
      if Dbl.lt (funPtr x1) (funPtr x2) then ternary steps' funPtr a x2
      else ternary steps' funPtr x1 b
  end.

#[export] Instance randMathMore : RandMathMore := {|
  sampleVariance := sampleVariance_fold;
  digamma := digamma_series;
  trigamma := trigamma_series;
  findMin := fun funPtr a b _ => (true, ternary 60 funPtr a b);
  ld_add := fun x y => x + y;
  ld_sub := fun x y => x - y
|}.

#[export] Instance gammaRandGetters : GammaRandGetters := {|
  getShape := GammaRand.alpha;
  getScale := GammaRand.theta;
  getRate := GammaRand.beta
|}.

(** A density with one peak, at 25, and a mean reported far from it. *)
Definition tent : ContinuousDistribution.t :=
  {| ContinuousDistribution.f := fun x => Dbl.max 0 (1 - Dbl.fabs (x - 25) / 30);
     ContinuousDistribution.F := fun x => 0;
     ContinuousDistribution.Mean := 0;
     ContinuousDistribution.Variance := 1 |}.

End ReferenceMore.

(** * Properties *)

(** ** Order facts on [double] *)

Module DblFacts.

Lemma SFcompare_swap (x y : spec_float) :
  SFcompare y x = option_map CompOpp (SFcompare x y).
Proof.
  destruct x as [sx|sx| |sx mx ex], y as [sy|sy| |sy my ey]; simpl;
    try destruct sx; try destruct sy; try reflexivity.
  - rewrite (Z.compare_antisym ey ex).
    destruct (ey ?= ex)%Z; simpl; try reflexivity.
    rewrite CompOpp_involutive. f_equal.
    exact (Pos.compare_cont_antisym my mx Eq).
  - rewrite (Z.compare_antisym ey ex).
    destruct (ey ?= ex)%Z; simpl; try reflexivity.
    f_equal. symmetry. exact (Pos.compare_cont_antisym mx my Eq).
Qed.

(** [a < b] excludes [b <= a]. *)
Lemma lt_not_ge (a b : double) : Dbl.lt a b = true -> Dbl.le b a = false.
Proof.
  unfold Dbl.lt, Dbl.le. rewrite ltb_spec, leb_spec.
  unfold SFltb, SFleb. rewrite (SFcompare_swap (Prim2SF a) (Prim2SF b)).
  destruct (SFcompare (Prim2SF a) (Prim2SF b)) as [[ | | ]|]; simpl; congruence.
Qed.

Lemma gt_not_le (a b : double) : Dbl.gt a b = true -> Dbl.le a b = false.
Proof. unfold Dbl.gt. apply lt_not_ge. Qed.

Lemma le_not_gt (a b : double) : Dbl.le a b = true -> Dbl.gt a b = false.
Proof.
  unfold Dbl.gt, Dbl.lt, Dbl.le. rewrite ltb_spec, leb_spec.
  unfold SFltb, SFleb. rewrite (SFcompare_swap (Prim2SF a) (Prim2SF b)).
  destruct (SFcompare (Prim2SF a) (Prim2SF b)) as [[ | | ]|]; simpl; congruence.
Qed.







Lemma SF_not_lt (x y : spec_float) :
  SFeqb y y = true ->
  negb (SFltb y x) = SFleb x y || negb (SFeqb x x).
Proof.
  unfold SFltb, SFleb, SFeqb. rewrite (SFcompare_swap x y).
  destruct x as [sa|sa| |sa ma ea], y as [sb|sb| |sb mb eb];
    try destruct sa; try destruct sb; simpl; try reflexivity; try discriminate;
    intros _; rewrite ?Z.compare_refl, ?Pos.compare_cont_refl; try reflexivity;
    try (destruct (ea ?= eb)%Z; simpl; try reflexivity;
         destruct (Pos.compare_cont Eq ma mb); reflexivity).
Qed.

(** A value that does not exceed a bound is at most the bound, or is NaN. *)
Lemma not_gt_le_or_nan (a b : double) :
  Dbl.isnan b = false ->
  negb (Dbl.gt a b) = Dbl.le a b || Dbl.isnan a.
Proof.
  unfold Dbl.gt, Dbl.lt, Dbl.le, Dbl.isnan, is_nan.
  rewrite ltb_spec, leb_spec, !eqb_spec. intros Hb.
  apply SF_not_lt. now apply negb_false_iff.
Qed.

(** The only values equal to zero are the two zeros. *)
Lemma eq_zero (x : double) : Dbl.eq x 0 = true -> x = 0 \/ x = neg_zero.
Proof.
  unfold Dbl.eq. rewrite eqb_spec. intros E.
  rewrite <- (SF2Prim_Prim2SF x).
  destruct (Prim2SF x) as [s|s| |s m e]; simpl in E.
  - destruct s; [right | left]; reflexivity.
  - destruct s; discriminate.
  - discriminate.
  - destruct s; discriminate.
Qed.

(** Zero is never within the closeness tolerance of one. *)
Lemma zero_not_close_to_one (x : double) :
  Dbl.eq x 0 = true -> RandMath.areClose x 1.0 = false.
Proof.
  intros E. destruct (eq_zero E) as [-> | ->]; reflexivity.
Qed.

End DblFacts.

(** ** [ContinuousDistribution] *)

Module ContinuousDistributionFacts.
Import ContinuousDistribution.

(** *** [ProbabilityDensityFunction] *)

Lemma assign_length (y : list double) (i : nat) (v : double) :
  length (assign y i v) = length y.
Proof.
  revert i; induction y as [|h rest IH]; intros [|i]; simpl; auto.
Qed.

Lemma nth_assign_same (y : list double) (i : nat) (v d : double) :
  (i < length y)%nat -> nth i (assign y i v) d = v.
Proof.
  revert i; induction y as [|h rest IH]; intros [|i] Hi; simpl in *; try lia; auto.
  apply IH; lia.
Qed.

Lemma nth_assign_other (y : list double) (i j : nat) (v d : double) :
  i <> j -> nth j (assign y i v) d = nth j y d.
Proof.
  revert i j; induction y as [|h rest IH]; intros [|i] [|j] Hij; simpl; auto; try lia.
Qed.

(** The loop writes the slots [i .. i + todo - 1] and no other. *)
Lemma pdf_loop_spec (this : t) (x : list double) (d : double) :
  forall (todo i : nat) (y : list double),
    (i + todo <= length y)%nat ->
    length (pdf_loop this x todo i y) = length y
    /\ (forall j, (i <= j < i + todo)%nat ->
                  nth j (pdf_loop this x todo i y) d = f this (nth j x 0))
    /\ (forall j, (j < i \/ i + todo <= j)%nat ->
                  nth j (pdf_loop this x todo i y) d = nth j y d).
Proof.
  induction todo as [|todo IH]; intros i y Hlen; simpl.
  - repeat split; auto. intros j Hj; lia.
  - destruct (IH (S i) (assign y i (f this (nth i x 0)))) as (L & W & K).
    { rewrite assign_length; lia. }
    rewrite assign_length in L.
    repeat split; auto.
    + intros j Hj. destruct (Nat.eq_dec j i) as [-> | Hne].
      * rewrite K by lia. apply nth_assign_same; lia.
      * apply W; lia.
    + intros j Hj. rewrite K by lia. apply nth_assign_other; lia.
Qed.

(** C9. [ProbabilityDensityFunction(x, y)] keeps the size of [y]; when [y] is
    at least as long as [x] it writes [f(x[i])] into [y[i]] for exactly the
    first [x.size()] positions and leaves every later element of [y] as it
    was; when [y] is shorter than [x] it leaves [y] entirely unchanged. *)
Theorem ProbabilityDensityFunction_frame (this : t) (x y : list double) (d : double) :
  ((length x <= length y)%nat ->
   length (ProbabilityDensityFunction this x y) = length y
   /\ (forall i, (i < length x)%nat ->
                 nth i (ProbabilityDensityFunction this x y) d = f this (nth i x 0))
   /\ (forall i, (length x <= i)%nat ->
                 nth i (ProbabilityDensityFunction this x y) d = nth i y d))
  /\ ((length y < length x)%nat -> ProbabilityDensityFunction this x y = y).
Proof.
  unfold ProbabilityDensityFunction. split; intros Hlen.
  - destruct (Nat.ltb_spec (length y) (length x)) as [Hlt | _]; [lia |].
    destruct (pdf_loop_spec this x d (length x) 0 y) as (L & W & K); [lia |].
    split; [exact L | split].
    + intros i Hi. apply W; lia.
    + intros i Hi. apply K; lia.
  - destruct (Nat.ltb_spec (length y) (length x)) as [_ | Hge]; [reflexivity | lia].
Qed.

Section WithRandMath.
Context {PF : Platform} {RM : RandMathOps}.

(** *** [Quantile] *)

(** C4. [Quantile(p)] is NaN when [p < 0] or [p > 1]; otherwise Newton's
    search for a root of [F(x) - p], with [f] as the derivative, starts at
    [Mean()], or at 0 when the mean is NaN or infinite; the root found is
    returned when the search succeeds and +infinity when it fails. *)
Theorem Quantile_contract (this : t) (p : double) :
  (Dbl.lt p 0 || Dbl.gt p 1 = true -> Quantile this p = NAN)
  /\ (Dbl.lt p 0 || Dbl.gt p 1 = false ->
      forall r : double,
        (findRoot (fun x => F this x - p) (fun x => f this x) (newtonSeed this) = (true, r) ->
         Quantile this p = r)
        /\ (findRoot (fun x => F this x - p) (fun x => f this x) (newtonSeed this) = (false, r) ->
            Quantile this p = INFINITY))
  /\ (Dbl.isnan (Mean this) = true \/ Dbl.isinf (Mean this) = true -> newtonSeed this = 0)
  /\ (Dbl.isnan (Mean this) = false -> Dbl.isinf (Mean this) = false ->
      newtonSeed this = Mean this).
Proof.
  unfold Quantile. split; [| split; [| split]].
  - intros ->. reflexivity.
  - intros -> r. unfold newtonSeed. cbv zeta. split; intros ->; reflexivity.
  - unfold newtonSeed. intros [-> | ->]; [reflexivity | now rewrite orb_true_r].
  - unfold newtonSeed. intros -> ->. reflexivity.
Qed.

(** *** [ExpectedValue] *)






(** The search stops where the magnitude of the integrand is at most
    [epsilon], and also where it is NaN. *)
Lemma stopsAt_le_or_nan (this : t) (funPtr : double -> double) (x : double) :
  stopsAt this funPtr x
  = Dbl.le (Dbl.fabs (integrand this funPtr x)) epsilon
    || Dbl.isnan (Dbl.fabs (integrand this funPtr x)).
Proof.
  unfold stopsAt. apply DblFacts.not_gt_le_or_nan. reflexivity.
Qed.



End WithRandMath.

End ContinuousDistributionFacts.

(** ** [GammaRand] *)

Module GammaRandFacts.
Import GammaRand.

Section WithCollaborators.
Context {PF : Platform} {RM : RandMathOps} {CS : Constants}.

(** *** Configuration *)




(** [setConstantsForGenerator] touches the large-shape constants only. *)
Lemma setConstantsForGenerator_frame (this : t) :
  let this' := setConstantsForGenerator this in
  alpha this' = alpha this /\ theta this' = theta this /\ beta this' = beta this
  /\ alphaInv this' = alphaInv this /\ cdfCoef this' = cdfCoef this
  /\ pdfCoef this' = pdfCoef this /\ variateCoef this' = variateCoef this.
Proof. cbv zeta. unfold setConstantsForGenerator. simpl. repeat split. Qed.

(** The members recomputed by every call, in terms of the clamped arguments. *)
Lemma setParameters_members (this : t) (shape scale : double) :
  let st := setParameters this shape scale in
  let a := clamped shape in
  let th := clamped scale in
  alphaInv st = 1.0 / a
  /\ theta st = th
  /\ beta st = 1.0 / th
  /\ alpha st = (if RandMath.areClose a (Dbl.round a) then Dbl.round a else a)
  /\ cdfCoef st =
     (if RandMath.areClose a (Dbl.round a)
      then ld_to_double (ld_div (ld_of_double 1.0) (factorial (Dbl.round a - 1)))
      else 1.0 / tgamma a)
  /\ pdfCoef st = cdfCoef st * pow (beta st) (alpha st)
  /\ variateCoef st = alphaInv st + M_1_E.
Proof.
  cbv zeta. unfold setParameters. fold (clamped shape). fold (clamped scale).
  destruct (RandMath.areClose (clamped shape) (Dbl.round (clamped shape)));
    match goal with |- context [if ?b then setConstantsForGenerator _ else _] =>
      destruct b end; simpl; repeat split.
Qed.



(** *** Draws *)

Section WithVariates.
Context {Rng : Type} {VR : Variates Rng}.
Variable fuel : positive.

(** [sample] and [variate] run the same generator in every regime except
    the half-integer one. *)
Lemma sample_repeats_variate_elsewhere (this : t) (outputData : list double) :
  Dbl.lt (alpha this) 5
  && negb (RandMath.areClose (alpha this) (Dbl.round (alpha this)))
  && RandMath.areClose (alpha this - 0.5) (Dbl.round (alpha this)) = false ->
  sample fuel this outputData = fill (variate fuel this) outputData.
Proof.
  unfold sample, variate.
  destruct (Dbl.lt (alpha this) 5); [| reflexivity].
  destruct (RandMath.areClose (alpha this) (Dbl.round (alpha this))); [reflexivity |].
  destruct (RandMath.areClose (alpha this - 0.5) (Dbl.round (alpha this)));
    [discriminate |].
  intros _.
  destruct (Dbl.le (alpha this) 1); [reflexivity |].
  destruct (Dbl.le (alpha this) 3); reflexivity.
Qed.

(** In the half-integer regime [variate] runs the integer-shape generator,
    [sample] the half-integer one. *)
Lemma half_integer_regime (this : t) (outputData : list double) :
  Dbl.lt (alpha this) 5 = true ->
  RandMath.areClose (alpha this) (Dbl.round (alpha this)) = false ->
  RandMath.areClose (alpha this - 0.5) (Dbl.round (alpha this)) = true ->
  variate fuel this = scaled this (variateForIntegerShape this)
  /\ sample fuel this outputData
     = fill (scaled this (variateForHalfIntegerShape this)) outputData.
Proof.
  unfold sample, variate. intros -> -> ->. split; reflexivity.
Qed.

(** C1, at shape 1.4999999 (within tolerance below the half-integer 1.5) and
    scale 1.  [variate] returns the sum of two standard-exponential draws and
    takes no standard-normal draw, where the half-integer generator returns
    one standard-exponential draw plus half the square of a standard-normal
    draw. *)
Theorem variate_half_integer_takes_no_normal_draw (this0 : t) (g : Rng) :
  let this := setParameters this0 1.4999999 1 in
  let E1 := Exponential_standardVariate g in
  let E2 := Exponential_standardVariate (snd E1) in
  let N := Normal_standardVariate (snd E1) in
  Dbl.lt (alpha this) 5 = true
  /\ RandMath.areClose (alpha this - 0.5) (Dbl.round (alpha this - 0.5)) = true
  /\ variate fuel this g = Some (1 * (0 + fst E1 + fst E2), snd E2)
  /\ scaled this (variateForHalfIntegerShape this) g
     = Some (1 * (0 + fst E1 + 0.5 * fst N * fst N), snd N).
Proof.
  cbv zeta. repeat split; vm_compute; reflexivity.
Qed.

(** At shape 1.5 exactly, [std::round] gives 2, neither closeness test
    succeeds, and [variate] runs the medium-shape generator. *)
Lemma variate_at_exact_half_integer (this0 : t) :
  let this := setParameters this0 1.5 1 in
  RandMath.areClose (alpha this - 0.5) (Dbl.round (alpha this - 0.5)) = true
  /\ variate fuel this = scaled this (variateForMediumShape fuel this).
Proof.
  cbv zeta. split; [vm_compute; reflexivity |].
  unfold variate.
  replace (alpha (setParameters this0 1.5 1)) with 1.5 by (vm_compute; reflexivity).
  reflexivity.
Qed.

End WithVariates.

End WithCollaborators.

End GammaRandFacts.

(** ** Computations and loops *)

Module GenFacts.

Section Laws.
Context {G : Type}.

Lemma bind_assoc {A B C} (m : Gen G A) (k : A -> Gen G B) (k' : B -> Gen G C) (g : G) :
  bind (bind m k) k' g = bind m (fun a => bind (k a) k') g.
Proof.
  unfold bind. destruct (m g) as [[a g']|]; reflexivity.
Qed.

Lemma bind_ext {A B} (m : Gen G A) (k k' : A -> Gen G B) (g : G) :
  (forall a g', k a g' = k' a g') -> bind m k g = bind m k' g.
Proof.
  intros E. unfold bind. destruct (m g) as [[a g']|]; [apply E | reflexivity].
Qed.

Lemma bind_cong {A B} (m m' : Gen G A) (k k' : A -> Gen G B) (g : G) :
  m g = m' g -> (forall a g', k a g' = k' a g') -> bind m k g = bind m' k' g.
Proof.
  intros Em Ek. unfold bind. rewrite Em.
  destruct (m' g) as [[a g']|]; [apply Ek | reflexivity].
Qed.

Lemma bind_ret_r {A} (m : Gen G A) (g : G) : bind m ret g = m g.
Proof.
  unfold bind, ret. destruct (m g) as [[a g']|]; reflexivity.
Qed.

Lemma runs_add {X R} (body : X -> Gen G (pass X R)) (a b : nat) :
  forall (x : X) (g : G),
    runs (a + b) body x g = bind (runs a body x) (andThen (runs b body)) g.
Proof.
  induction a as [|a IH]; intros x g; simpl.
  - reflexivity.
  - rewrite bind_assoc. apply bind_ext. intros [x'|v] g'; simpl.
    + apply IH.
    + reflexivity.
Qed.

(** The binary recursion of [iterate] makes the passes one after another. *)
Lemma iterate_runs {X R} (body : X -> Gen G (pass X R)) (n : positive) :
  forall (x : X) (g : G), iterate n body x g = runs (Pos.to_nat n) body x g.
Proof.
  induction n as [n IH | n IH |]; intros x g; cbn [iterate].
  - rewrite Pos2Nat.inj_xI. cbn [runs].
    apply bind_ext. intros [x'|v] g'; [| reflexivity].
    replace (2 * Pos.to_nat n)%nat with (Pos.to_nat n + Pos.to_nat n)%nat by lia.
    rewrite runs_add. apply bind_cong; [apply IH |].
    intros [x''|v] g''; [apply IH | reflexivity].
  - rewrite Pos2Nat.inj_xO.
    replace (2 * Pos.to_nat n)%nat with (Pos.to_nat n + Pos.to_nat n)%nat by lia.
    rewrite runs_add. apply bind_cong; [apply IH |].
    intros [x''|v] g''; [apply IH | reflexivity].
  - simpl. unfold bind. destruct (body x g) as [[[x'|v] g']|]; reflexivity.
Qed.

(** A loop makes its first pass, then the passes that remain. *)
Lemma loop_first_pass {X R} (body : X -> Gen G (pass X R)) (fuel : positive) (x : X) (g : G) :
  loop fuel body x g
  = bind (body x)
         (fun r => bind (andThen (runs (Nat.pred (Pos.to_nat fuel)) body) r)
                        (fun r' => match r' with Leave v => ret v | Again _ => stuck end)) g.
Proof.
  unfold loop. unfold bind at 1. rewrite iterate_runs.
  destruct (Pos2Nat.is_succ fuel) as [k ->]. cbn [Nat.pred runs].
  fold (bind (bind (body x) (andThen (runs k body)))
             (fun r' => match r' with Leave v => ret v | Again _ => @stuck G R end) g).
  apply bind_assoc.
Qed.

End Laws.

(** *** Counted draws *)

Section Counted.
Context {Rng : Type}.
Import Counting.

Lemma advances_keeps {A} (m : Gen (Rng * nat) A) : advances m -> keeps m.
Proof. intros Hm s a s' E. apply Hm in E. lia. Qed.

Lemma keeps_ret {A} (a : A) : keeps (Rng := Rng) (ret a).
Proof. intros s a' s' E. inversion E; subst. lia. Qed.

Lemma keeps_stuck {A} : keeps (@stuck (Rng * nat) A).
Proof. intros s a s' E. discriminate. Qed.

Lemma keeps_as_int (x : double) : keeps (Rng := Rng) (as_int x).
Proof.
  unfold as_int. destruct (Dbl.to_int x); [apply keeps_ret | apply keeps_stuck].
Qed.

Lemma advances_tick {A} (f : Rng -> A * Rng) : advances (draw (Counting.tick f)).
Proof.
  intros s a s' E. unfold draw, Counting.tick in E. inversion E; subst. simpl. lia.
Qed.

Lemma keeps_bind {A B} (m : Gen (Rng * nat) A) (k : A -> Gen (Rng * nat) B) :
  keeps m -> (forall a, keeps (k a)) -> keeps (bind m k).
Proof.
  intros Hm Hk s b s' E. unfold bind in E.
  destruct (m s) as [[a s1]|] eqn:Em; [| discriminate].
  apply Hm in Em. apply Hk in E. lia.
Qed.

Lemma advances_bind {A B} (m : Gen (Rng * nat) A) (k : A -> Gen (Rng * nat) B) :
  advances m -> (forall a, keeps (k a)) -> advances (bind m k).
Proof.
  intros Hm Hk s b s' E. unfold bind in E.
  destruct (m s) as [[a s1]|] eqn:Em; [| discriminate].
  apply Hm in Em. apply Hk in E. lia.
Qed.

Lemma keeps_runs {X R} (body : X -> Gen (Rng * nat) (pass X R)) :
  (forall x, keeps (body x)) -> forall k x, keeps (runs k body x).
Proof.
  intros Hbody. induction k as [|k IH]; intros x; simpl.
  - apply keeps_ret.
  - apply keeps_bind; [apply Hbody |]. intros [x'|v]; [apply IH | apply keeps_ret].
Qed.

Lemma keeps_loop {X R} (body : X -> Gen (Rng * nat) (pass X R)) (fuel : positive) (x : X) :
  (forall x, keeps (body x)) -> keeps (loop fuel body x).
Proof.
  intros Hbody s a s' E. unfold loop in E.
  revert E. apply keeps_bind.
  - intros s0 a0 s0' E0. rewrite iterate_runs in E0. revert E0. now apply keeps_runs.
  - intros [x'|v]; [apply keeps_stuck | apply keeps_ret].
Qed.

(** A loop whose first pass draws has drawn when it returns. *)
Lemma advances_loop {X R} (body : X -> Gen (Rng * nat) (pass X R)) (fuel : positive) (x : X) :
  advances (body x) -> (forall x', keeps (body x')) -> advances (loop fuel body x).
Proof.
  intros Hfirst Hbody s a s' E. rewrite loop_first_pass in E. revert E.
  apply advances_bind; [exact Hfirst |].
  intros r. apply keeps_bind.
  - destruct r as [x'|v]; simpl; [now apply keeps_runs | apply keeps_ret].
  - intros [x'|v]; [apply keeps_stuck | apply keeps_ret].
Qed.

Lemma keeps_fill {A} (m : Gen (Rng * nat) A) (out : list A) : keeps m -> keeps (fill m out).
Proof.
  intros Hm. induction out as [|a out IH]; simpl; [apply keeps_ret |].
  apply keeps_bind; [exact Hm |]. intros v.
  apply keeps_bind; [exact IH |]. intros vs. apply keeps_ret.
Qed.

End Counted.

End GenFacts.

(** ** The cumulative function in exact arithmetic *)

Module ExactBinomialFacts.
Import ExactBinomial.
Local Open Scope R_scope.







End ExactBinomialFacts.

(** ** [BinomialRand] *)

Module BinomialRandFacts.
Import BinomialRand.

Section WithCollaborators.
Context {PF : Platform} {RM : RandMathOps} {CS : Constants} {Rng : Type} {VR : Variates Rng}.

(** *** The cumulative function *)






(** *** The estimators *)

(** The maximum-likelihood and moment estimators fail closed. *)
Lemma fitProbabilityMLE_fails_closed (this : t) (sample : list double) :
  checkValidity this sample = Some false ->
  fitProbabilityMLE this sample = Some (false, this)
  /\ fitProbabilityMM this sample = Some (false, this).
Proof.
  unfold fitProbabilityMM, fitProbabilityMLE. intros ->. split; reflexivity.
Qed.

(** They update the parameters only after the check has passed. *)
Lemma fitProbabilityMLE_updates_after_check (this this' : t) (sample : list double) :
  fitProbabilityMLE this sample = Some (true, this') ->
  checkValidity this sample = Some true
  /\ setParameters this (n this) (sampleMean sample / Dbl.of_int (n this)) = Some this'.
Proof.
  unfold fitProbabilityMLE.
  destruct (checkValidity this sample) as [[|]|]; try discriminate.
  destruct (setParameters _ _ _) as [st|]; try discriminate.
  intros E. inversion E; subst. split; reflexivity.
Qed.

Section Bayes.
Context {BR : BetaRandOps}.

(** The Bayesian estimator never reports failure: it does not consult
    [checkValidity]. *)
Lemma fitProbabilityBayes_never_fails
      (this : t) (sample : list double) (prior : BetaRand) (r : bool * t * BetaRand) :
  fitProbabilityBayes this sample prior = Some r -> fst (fst r) = true.
Proof.
  unfold fitProbabilityBayes.
  destruct (setParameters _ _ _) as [st|]; [| discriminate].
  intros E. inversion E; subst. reflexivity.
Qed.

End Bayes.

(** *** Single draws *)

Variable fuel : positive.

Lemma setGeneratorConstants_regime (this0 this : t) :
  setGeneratorConstants this0 = Some this ->
  minpq this = Dbl.min (p this) (q this)
  /\ (getIdOfUsedGenerator this = WAITING ->
      G this = Geometric_setProbability (G this0) (minpq this))
  /\ (getIdOfUsedGenerator this = REJECTION -> Dbl.gt (pRes this) 0 = true ->
      G this = Geometric_setProbability (G this0) (pRes this / (1.0 - pFloor this))).
Proof.
  unfold setGeneratorConstants.
  match goal with |- context [getIdOfUsedGenerator ?r] => set (this1 := r) end.
  destruct (getIdOfUsedGenerator this1) eqn:Eid.
  - intros E. inversion E; subst this. clear E.
    repeat split; intros E; rewrite Eid in E; discriminate.
  - intros E. inversion E; subst this. clear E.
    split; [reflexivity | split].
    + intros _. reflexivity.
    + intros E. exfalso.
      change (getIdOfUsedGenerator this1 = REJECTION) in E. congruence.
  - destruct (Dbl.to_int _) as [k|]; [| discriminate].
    intros E. inversion E; subst this. clear E.
    split; [reflexivity | split].
    + intros E. exfalso.
      change (getIdOfUsedGenerator this1 = WAITING) in E. congruence.
    + intros _ Hres. cbn [G pRes pFloor] in *. rewrite Hres. reflexivity.
Qed.

(** Every configured instance has [n >= 1]. *)
Lemma setParameters_count (this this' : t) (number : Z) (probability : double) :
  setParameters this number probability = Some this' ->
  n this' = Z.max number 1 /\ (1 <= n this')%Z.
Proof.
  unfold setParameters, setGeneratorConstants.
  match goal with |- context [getIdOfUsedGenerator ?r] => destruct (getIdOfUsedGenerator r) end.
  - intros E. inversion E; subst this'. cbn [n]. lia.
  - intros E. inversion E; subst this'. cbn [n]. lia.
  - destruct (Dbl.to_int _) as [k|]; [| discriminate].
    intros E. inversion E; subst this'. cbn [n]. lia.
Qed.

(** C6. In the waiting-time regime the draw [X] of [variateWaiting(n)] is
    returned as [n - X] when [p > 0.5] and as it is when [p <= 0.5] (both by
    way of [double], as in the source).  In the rejection regime the draw [Y]
    of [variateRejection], to which a waiting-time draw over the remaining
    [n - Y] trials is added first when the rounding residue is positive, is
    returned as [n - Y] when [p > 0.5] and as it is when [p <= 0.5].  After
    configuration the generators draw from the minority probability
    [min(p, q)]: it parameterizes the waiting-time draw, and the rejection
    regime's residual draw is parameterized by the residue over
    [1 - pFloor]. *)
Theorem variate_reflects_minority_draw (this : t) (g : Rng) :
  (getIdOfUsedGenerator this = WAITING ->
   (Dbl.gt (p this) 0.5 = true ->
    variate fuel this g
    = (X <- variateWaiting fuel this (n this) ;;
       as_int (Dbl.of_int (n this) - Dbl.of_int X)) g)
   /\ (Dbl.le (p this) 0.5 = true ->
       variate fuel this g
       = (X <- variateWaiting fuel this (n this) ;; as_int (Dbl.of_int X)) g))
  /\ (getIdOfUsedGenerator this = REJECTION ->
      (Dbl.gt (p this) 0.5 = true ->
       (Dbl.gt (pRes this) 0 = true ->
        variate fuel this g
        = (Y <- variateRejection this ;;
           W <- variateWaiting fuel this (n this - Y) ;;
           ret (n this - (Y + W))%Z) g)
       /\ (Dbl.gt (pRes this) 0 = false ->
           variate fuel this g = (Y <- variateRejection this ;; ret (n this - Y)%Z) g))
      /\ (Dbl.le (p this) 0.5 = true ->
          (Dbl.gt (pRes this) 0 = true ->
           variate fuel this g
           = (Y <- variateRejection this ;;
              W <- variateWaiting fuel this (n this - Y) ;;
              ret (Y + W)%Z) g)
          /\ (Dbl.gt (pRes this) 0 = false ->
              variate fuel this g = variateRejection this g)))
  /\ (forall this0 : t,
         setGeneratorConstants this0 = Some this ->
         minpq this = Dbl.min (p this) (q this)
         /\ (getIdOfUsedGenerator this = WAITING ->
             G this = Geometric_setProbability (G this0) (minpq this))
         /\ (getIdOfUsedGenerator this = REJECTION -> Dbl.gt (pRes this) 0 = true ->
             G this = Geometric_setProbability (G this0) (pRes this / (1.0 - pFloor this)))).
Proof.
  split; [| split].
  - intros Eid. unfold variate. rewrite Eid. split.
    + intros Hp. rewrite (DblFacts.gt_not_le Hp). reflexivity.
    + intros ->. reflexivity.
  - intros Eid. unfold variate. rewrite Eid. split.
    + intros Hp. rewrite Hp. split; intros ->.
      * apply GenFacts.bind_ext. intros Y g'.
        rewrite GenFacts.bind_assoc. reflexivity.
      * reflexivity.
    + intros Hp. rewrite (DblFacts.le_not_gt Hp). split; intros ->.
      * apply GenFacts.bind_ext. intros Y g'.
        rewrite GenFacts.bind_assoc. reflexivity.
      * rewrite <- (GenFacts.bind_ret_r (variateRejection this) g).
        apply GenFacts.bind_ext. intros Y g'. reflexivity.
  - intros this0. apply setGeneratorConstants_regime.
Qed.

End WithCollaborators.

End BinomialRandFacts.

(** *** Draws counted: [sample] short-circuits, [variate] does not *)

Module BinomialDrawsFacts.
Import BinomialRand GenFacts Counting.

Section Counted.
Context {PF : Platform} {RM : RandMathOps} {CS : Constants} {Rng : Type} (base : Variates Rng).
Variable fuel : positive.

Ltac keeps_step :=
  first
    [ apply keeps_ret
    | apply keeps_stuck
    | apply keeps_as_int
    | apply advances_keeps; apply advances_tick
    | apply keeps_bind; [| intros ?]
    | match goal with
      | |- keeps (if ?b then _ else _) => destruct b
      | |- keeps (match ?x with (_, _) => _ end) => destruct x
      end ].

Lemma advances_variateWaiting (this : t (VR := Counting.variates base)) (number : Z) :
  advances (variateWaiting (VR := Counting.variates base) fuel this number).
Proof.
  unfold variateWaiting. apply advances_loop.
  - apply advances_bind; [apply advances_tick |]. intros k. repeat keeps_step.
  - intros [X sum]. repeat keeps_step.
Qed.

Lemma advances_variateRejection (this : t (VR := Counting.variates base)) :
  advances (variateRejection (VR := Counting.variates base) this).
Proof.
  unfold variateRejection. apply advances_loop.
  - apply advances_bind; [apply advances_tick |]. intros U. repeat keeps_step.
  - intros [[iter X] V]. repeat keeps_step.
Qed.

Lemma advances_sumOfBernoulli (number : Z) (bernoulli : Gen (Rng * nat) Z) :
  (1 <= number)%Z -> advances bernoulli ->
  advances (sumOfBernoulli number bernoulli).
Proof.
  intros Hn Hb. unfold sumOfBernoulli. apply advances_loop.
  - destruct (Z.eqb_spec 0 number) as [E0 | _]; [lia |]. cbn [negb].
    apply advances_bind; [exact Hb |]. intros x. apply keeps_ret.
  - intros [i var]. destruct (negb (i =? number)%Z); [| apply keeps_ret].
    apply keeps_bind; [now apply advances_keeps |]. intros x. apply keeps_ret.
Qed.

Lemma advances_variate (this : t (VR := Counting.variates base)) :
  (1 <= n this)%Z -> advances (variate (VR := Counting.variates base) fuel this).
Proof.
  intros Hn. unfold variate.
  destruct (getIdOfUsedGenerator this).
  - unfold variateBernoulliSum.
    destruct (RandMath.areClose (p this) 0.5);
      apply advances_sumOfBernoulli; try exact Hn; apply advances_tick.
  - apply advances_bind; [apply advances_variateWaiting |].
    intros var. apply keeps_as_int.
  - apply advances_bind; [apply advances_variateRejection |].
    intros Y. apply keeps_bind; [| intros Y'; apply keeps_ret].
    destruct (Dbl.gt (pRes this) 0); [| apply keeps_ret].
    apply keeps_bind; [apply advances_keeps, advances_variateWaiting |].
    intros W. apply keeps_ret.
Qed.

End Counted.

Section WithCollaborators.
Context {PF : Platform} {RM : RandMathOps} {CS : Constants} {Rng : Type} {VR : Variates Rng}.
Variable fuel : positive.

(** C10. [sample] settles the degenerate probabilities before it looks at the
    regime: with [p == 0] every slot of the buffer becomes 0, with [p] within
    tolerance of 1 every slot becomes [n], and in both cases the generator
    state is returned as it was received, no draw made.  [variate] has no such
    exit: over the generator that counts its draws, every value it returns
    from an instance with [n >= 1], whatever its [p], comes with at least one
    more draw counted. *)
Theorem sample_short_circuits_but_variate_draws :
  (forall (this : t) (outputData : list Z) (g : Rng),
      Dbl.eq (p this) 0.0 = true ->
      sample fuel this outputData g = Some (map (fun _ => 0%Z) outputData, g))
  /\ (forall (this : t) (outputData : list Z) (g : Rng),
         RandMath.areClose (p this) 1.0 = true ->
         sample fuel this outputData g = Some (map (fun _ => n this) outputData, g))
  /\ (forall (this : t (VR := Counting.variates VR)) (s s' : Rng * nat) (x : Z),
         (1 <= n this)%Z ->
         variate (VR := Counting.variates VR) fuel this s = Some (x, s') ->
         (snd s < snd s')%nat).
Proof.
  split; [| split].
  - intros this out g Hp. unfold sample. rewrite Hp. reflexivity.
  - intros this out g Hp. unfold sample.
    destruct (Dbl.eq (p this) 0.0) eqn:Hz.
    + rewrite (DblFacts.zero_not_close_to_one Hz) in Hp. discriminate.
    + rewrite Hp. reflexivity.
  - intros this s s' x Hn. revert s x s'.
    change (advances (variate (VR := Counting.variates VR) fuel this)).
    now apply advances_variate.
Qed.

End WithCollaborators.

End BinomialDrawsFacts.

(** ** More order facts on [double] *)

Module DblMoreFacts.

Lemma isnan_spec (x : double) : Dbl.isnan x = true <-> Prim2SF x = S754_nan.
Proof.
  unfold Dbl.isnan, is_nan. rewrite eqb_spec.
  destruct (Prim2SF x) as [s|s| |s m e]; simpl; unfold SFeqb; simpl;
    try (destruct s); try (split; [discriminate | discriminate]); try (split; reflexivity).
  all: try (rewrite Z.compare_refl, Pos.compare_cont_refl; simpl; split; discriminate).
Qed.

Lemma mul_nan_l (a b : double) : Dbl.isnan a = true -> Dbl.isnan (a * b) = true.
Proof.
  rewrite !isnan_spec, mul_spec. intros ->. reflexivity.
Qed.

Lemma mul_nan_r (a b : double) : Dbl.isnan b = true -> Dbl.isnan (a * b) = true.
Proof.
  rewrite !isnan_spec, mul_spec. intros ->.
  destruct (Prim2SF a) as [s|s| |s m e]; reflexivity.
Qed.

Lemma add_nan_l (a b : double) : Dbl.isnan a = true -> Dbl.isnan (a + b) = true.
Proof.
  rewrite !isnan_spec, add_spec. intros ->. reflexivity.
Qed.

Lemma add_nan_r (a b : double) : Dbl.isnan b = true -> Dbl.isnan (a + b) = true.
Proof.
  rewrite !isnan_spec, add_spec. intros ->.
  destruct (Prim2SF a) as [s|s| |s m e]; reflexivity.
Qed.

Lemma sub_nan_r (a b : double) : Dbl.isnan b = true -> Dbl.isnan (a - b) = true.
Proof.
  rewrite !isnan_spec, sub_spec. intros ->.
  destruct (Prim2SF a) as [s|s| |s m e]; reflexivity.
Qed.

Lemma abs_nan (a : double) : Dbl.isnan a = true -> Dbl.isnan (Dbl.fabs a) = true.
Proof.
  unfold Dbl.fabs. rewrite !isnan_spec, abs_spec. intros ->. reflexivity.
Qed.

Lemma lt_nan_l (a b : double) : Dbl.isnan a = true -> Dbl.lt a b = false.
Proof.
  unfold Dbl.lt. rewrite isnan_spec, ltb_spec. intros ->. reflexivity.
Qed.

Lemma lt_nan_r (a b : double) : Dbl.isnan b = true -> Dbl.lt a b = false.
Proof.
  unfold Dbl.lt. rewrite isnan_spec, ltb_spec. intros ->.
  destruct (Prim2SF a) as [s|s| |s m e]; try destruct s; reflexivity.
Qed.

Lemma le_nan_l (a b : double) : Dbl.isnan a = true -> Dbl.le a b = false.
Proof.
  unfold Dbl.le. rewrite isnan_spec, leb_spec. intros ->. reflexivity.
Qed.

Lemma isnan_false_iff (x : double) : Dbl.isnan x = false <-> Prim2SF x <> S754_nan.
Proof.
  rewrite <- isnan_spec. destruct (Dbl.isnan x); split; congruence.
Qed.

(** A value close to another is close to a number. *)
Lemma areClose_not_nan (a b : double) :
  RandMath.areClose a b = true -> Dbl.isnan b = false.
Proof.
  unfold RandMath.areClose, RandMath.areClose_eps. intros E.
  destruct (Dbl.isnan b) eqn:N; [| reflexivity].
  rewrite lt_nan_l in E; [discriminate |].
  apply abs_nan, sub_nan_r, N.
Qed.

Lemma SFltb_le_trans (x y z : spec_float) :
  SFleb x y = true -> SFltb y z = true -> SFltb x z = true.
Proof.
  unfold SFleb, SFltb.
  destruct x as [sx|sx| |sx mx ex], y as [sy|sy| |sy my ey], z as [sz|sz| |sz mz ez];
    try destruct sx; try destruct sy; try destruct sz; simpl;
    try (intros; reflexivity); try (intros; discriminate).
  all: change (Pos.compare_cont Eq ?a ?b) with (Pos.compare a b).
  all: try (destruct (Z.compare_spec ex ey); try (intros; discriminate);
            destruct (Z.compare_spec ey ez); try (intros; discriminate);
            destruct (Z.compare_spec ex ez); try (intros; reflexivity); try lia;
            subst;
            try destruct (Pos.compare_spec mx my); try (intros; discriminate);
            try destruct (Pos.compare_spec my mz); try (intros; discriminate);
            try destruct (Pos.compare_spec mx mz); simpl; try (intros; reflexivity);
            try (intros; discriminate); try lia).
Qed.

Lemma le_lt_trans (a b c : double) :
  Dbl.le a b = true -> Dbl.lt b c = true -> Dbl.lt a c = true.
Proof.
  unfold Dbl.le, Dbl.lt. rewrite leb_spec, !ltb_spec. apply SFltb_le_trans.
Qed.

(** A value is not below zero when it is zero or more, or NaN. *)
Lemma not_lt_zero (x : double) : negb (Dbl.lt x 0) = Dbl.le 0 x || Dbl.isnan x.
Proof.
  destruct (Dbl.isnan x) eqn:N.
  - rewrite (@lt_nan_l x 0 N). now rewrite orb_true_r.
  - change (Dbl.lt x 0) with (Dbl.gt 0 x).
    rewrite (@DblFacts.not_gt_le_or_nan 0 x N). reflexivity.
Qed.

End DblMoreFacts.

(** ** Loop invariants and buffers *)

Module LoopFacts.
Import GenFacts.

Section Invariants.
Context {G X R : Type}.
Variable body : X -> Gen G (pass X R).
Variable Inv : X -> G -> Prop.
Variable Post : R -> G -> Prop.

(** What a pass leaves: the invariant on the way round, the postcondition
    on the way out. *)
Hypothesis body_keeps :
  forall x g r g', Inv x g -> body x g = Some (r, g') ->
                   match r with
                   | Again x' => Inv x' g'
                   | Leave v => Post v g'
                   end.

Lemma runs_invariant (k : nat) :
  forall x g r g', Inv x g -> runs k body x g = Some (r, g') ->
                   match r with
                   | Again x' => Inv x' g'
                   | Leave v => Post v g'
                   end.
Proof.
  induction k as [|k IH]; intros x g r g' HI E; simpl in E.
  - inversion E; subst. exact HI.
  - unfold bind in E. destruct (body x g) as [[[x'|v] g1]|] eqn:Eb; [| | discriminate].
    + apply (IH x' g1); [| exact E]. exact (body_keeps HI Eb).
    + inversion E; subst. exact (body_keeps HI Eb).
Qed.

Lemma loop_invariant (fuel : positive) (x : X) (g : G) (v : R) (g' : G) :
  Inv x g -> loop fuel body x g = Some (v, g') -> Post v g'.
Proof.
  intros HI E. unfold loop, bind in E. rewrite iterate_runs in E.
  destruct (runs (Pos.to_nat fuel) body x g) as [[[x'|v'] g1]|] eqn:Er;
    [discriminate | | discriminate].
  inversion E; subst. exact (runs_invariant _ HI Er).
Qed.

End Invariants.

Section Buffers.
Context {G A : Type}.

Lemma fill_length (m : Gen G A) (outputData : list A) :
  forall g out g', fill m outputData g = Some (out, g') -> length out = length outputData.
Proof.
  induction outputData as [|a rest IH]; intros g out g' E; simpl in E.
  - inversion E; subst. reflexivity.
  - unfold bind in E. destruct (m g) as [[v g1]|]; [| discriminate].
    destruct (fill m rest g1) as [[vs g2]|] eqn:Ef; [| discriminate].
    inversion E; subst. simpl. f_equal. exact (IH _ _ _ Ef).
Qed.

Lemma refill_length (update : A -> Gen G A) (outputData : list A) :
  forall g out g', refill update outputData g = Some (out, g') ->
                   length out = length outputData.
Proof.
  induction outputData as [|a rest IH]; intros g out g' E; simpl in E.
  - inversion E; subst. reflexivity.
  - unfold bind in E. destruct (update a g) as [[v g1]|]; [| discriminate].
    destruct (refill update rest g1) as [[vs g2]|] eqn:Ef; [| discriminate].
    inversion E; subst. simpl. f_equal. exact (IH _ _ _ Ef).
Qed.

End Buffers.

End LoopFacts.

(** ** [RandMath.h]: the table of factorials *)

Module FactorialTableFacts.
Import FactorialTable.


End FactorialTableFacts.

(** ** [ContinuousDistribution]: likelihoods and the mode *)

Module ContinuousDistributionMoreFacts.
Import ContinuousDistribution ContinuousDistributionMore GenFacts LoopFacts DblFacts DblMoreFacts.

Section WithRandMath.
Context {PF : Platform} {RM : RandMathOps} {RMM : RandMathMore}.

Lemma product_stays_nan (this : t) (sample : list double) (res : double) :
  Dbl.isnan res = true ->
  Dbl.isnan (fold_left (fun res var => res * f this var) sample res) = true.
Proof.
  revert res. induction sample as [|x rest IH]; intros res N; [exact N |].
  cbn [fold_left]. apply IH. now apply mul_nan_l.
Qed.

Lemma sum_stays_nan (this : t) (sample : list double) (res : double) :
  Dbl.isnan res = true ->
  Dbl.isnan (fold_left (fun res var => res + log (f this var)) sample res) = true.
Proof.
  revert res. induction sample as [|x rest IH]; intros res N; [exact N |].
  cbn [fold_left]. apply IH. now apply add_nan_l.
Qed.

(** X2.  One sample point at which the density is NaN makes the likelihood
    NaN; one at which its logarithm is NaN makes the log-likelihood NaN. *)
Theorem likelihood_propagates_nan (this : t) (sample : list double) (x : double) :
  In x sample ->
  (Dbl.isnan (f this x) = true -> Dbl.isnan (likelihood this sample) = true)
  /\ (Dbl.isnan (log (f this x)) = true -> Dbl.isnan (loglikelihood this sample) = true).
Proof.
  unfold likelihood, loglikelihood. generalize 1.0 0.0.
  induction sample as [|y rest IH]; intros r1 r0 Hin; [contradiction |].
  cbn [fold_left]. destruct Hin as [-> | Hin].
  - split; intros N.
    + apply product_stays_nan. now apply mul_nan_r.
    + apply sum_stays_nan. now apply add_nan_r.
  - now apply IH.
Qed.

(** X3.  The localization of [Mode] starts from a point and with a step that
    are finite, whatever the mean, the median and the variance are. *)
Theorem mode_starts_finite (this : t) :
  Dbl.isnan (modeStart this) || Dbl.isinf (modeStart this) = false
  /\ Dbl.isnan (modeStep this) || Dbl.isinf (modeStep this) = false.
Proof.
  unfold modeStart, modeStep. split.
  - destruct (Dbl.isnan (Mean this) || Dbl.isinf (Mean this)) eqn:E1; [| exact E1].
    destruct (Dbl.isnan (Median this) || Dbl.isinf (Median this)) eqn:E2;
      [reflexivity | exact E2].
  - destruct (Dbl.isnan (10 * Variance this) || Dbl.isinf (10 * Variance this)) eqn:E;
      [reflexivity | exact E].
Qed.

Lemma moveLeft_invariant (fuel : positive) (this : t) (step : double) (x x' : bracket) :
  fa x = f this (a x) /\ fb x = f this (b x) /\ fmu x = f this (mu x) ->
  moveLeft fuel this step x tt = Some (x', tt) ->
  (fa x' = f this (a x') /\ fb x' = f this (b x') /\ fmu x' = f this (mu x'))
  /\ Dbl.gt (fa x') (fmu x') = false.
Proof.
  unfold moveLeft. intros HI E.
  apply (@loop_invariant _ _ _ _
           (fun (x : bracket) (_ : unit) =>
              fa x = f this (a x) /\ fb x = f this (b x) /\ fmu x = f this (mu x))
           (fun (x : bracket) (_ : unit) =>
              (fa x = f this (a x) /\ fb x = f this (b x) /\ fmu x = f this (mu x))
              /\ Dbl.gt (fa x) (fmu x) = false)) in E; [exact E | | exact HI].
  clear. intros x g r g' (Ha & Hb & Hm).
  destruct (Dbl.gt (fa x) (fmu x)) eqn:G; intros E; inversion E; subst; simpl.
  - repeat split; simpl; assumption.
  - repeat split; assumption.
Qed.

Lemma gt_asym (u v : double) : Dbl.gt u v = true -> Dbl.gt v u = false.
Proof.
  unfold Dbl.gt. intros H. fold (Dbl.lt v u) in H. fold (Dbl.lt u v).
  pose proof (lt_not_ge H) as L.
  destruct (Dbl.lt u v) eqn:E; [| reflexivity].
  pose proof (lt_not_ge E) as L'.
  unfold Dbl.lt, Dbl.le in *. rewrite ltb_spec in H, E. rewrite leb_spec in L, L'.
  unfold SFltb, SFleb in *. rewrite (SFcompare_swap (Prim2SF u) (Prim2SF v)) in H.
  destruct (SFcompare (Prim2SF u) (Prim2SF v)) as [[ | | ]|]; simpl in *; congruence.
Qed.

Lemma moveRight_invariant (fuel : positive) (this : t) (step : double) (x x' : bracket) :
  fb x = f this (b x) /\ fmu x = f this (mu x)
  /\ Dbl.gt (f this (a x)) (f this (mu x)) = false ->
  moveRight fuel this step x tt = Some (x', tt) ->
  Dbl.gt (f this (a x')) (f this (mu x')) = false
  /\ Dbl.gt (f this (b x')) (f this (mu x')) = false.
Proof.
  unfold moveRight. intros HI E.
  apply (@loop_invariant _ _ _ _
           (fun (x : bracket) (_ : unit) =>
              fb x = f this (b x) /\ fmu x = f this (mu x)
              /\ Dbl.gt (f this (a x)) (f this (mu x)) = false)
           (fun (x : bracket) (_ : unit) =>
              Dbl.gt (f this (a x)) (f this (mu x)) = false
              /\ Dbl.gt (f this (b x)) (f this (mu x)) = false)) in E; [exact E | | exact HI].
  clear. intros x g r g' (Hb & Hm & Ha).
  destruct (Dbl.gt (fb x) (fmu x)) eqn:G; intros E; inversion E; subst; simpl.
  - repeat split; try assumption. simpl. rewrite Hb, Hm in G. now apply gt_asym.
  - split; [exact Ha |]. now rewrite <- Hb, <- Hm.
Qed.

(** X4.  In the bracket that [Mode] hands to the minimizer, the density at
    neither end exceeds the density at the point kept between them. *)
Theorem mode_bracket_holds_a_peak (fuel : positive) (this : t) (x : bracket) :
  localize fuel this = Some x ->
  Dbl.gt (f this (a x)) (f this (mu x)) = false
  /\ Dbl.gt (f this (b x)) (f this (mu x)) = false.
Proof.
  unfold localize, bind.
  match goal with |- context [moveLeft fuel this ?s ?x0 tt] =>
    destruct (moveLeft fuel this s x0 tt) as [[x1 []]|] eqn:E1; [| discriminate];
    destruct (moveRight fuel this s x1 tt) as [[x2 []]|] eqn:E2; [| discriminate]
  end.
  intros E. inversion E; subst x2. clear E.
  apply moveLeft_invariant in E1; [| repeat split].
  destruct E1 as ((Ha & Hb & Hm) & G).
  apply moveRight_invariant in E2; [exact E2 |].
  repeat split; try assumption. now rewrite <- Ha, <- Hm.
Qed.

End WithRandMath.

End ContinuousDistributionMoreFacts.

(** ** [GammaRand]: estimators and reconfiguration *)

Module GammaRandMoreFacts.
Import GammaRand GammaRandMore GenFacts LoopFacts DblFacts DblMoreFacts.

Section WithCollaborators.
Context {PF : Platform} {RM : RandMathOps} {CS : Constants} {RMM : RandMathMore}
        {GG : GammaRandGetters}.

(** *** The estimators *)

(** X5.  [checkValidity] accepts exactly the samples whose every element is
    zero or more, or NaN. *)
Theorem checkValidity_accepts_nan_and_non_negative (sample : list double) :
  checkValidity sample = forallb (fun var => Dbl.le 0 var || Dbl.isnan var) sample.
Proof.
  induction sample as [|var rest IH]; [reflexivity |]. cbn [checkValidity forallb].
  rewrite <- IH. rewrite <- not_lt_zero. destruct (Dbl.lt var 0); reflexivity.
Qed.

Lemma checkValidity_rejects (sample : list double) (var : double) :
  In var sample -> Dbl.lt var 0 = true -> checkValidity sample = false.
Proof.
  induction sample as [|x rest IH]; intros Hin Hlt; [contradiction |].
  cbn [checkValidity]. destruct Hin as [-> | Hin].
  - now rewrite Hlt.
  - destruct (Dbl.lt x 0); [reflexivity | now apply IH].
Qed.

(** X6.  A sample with an element below zero fails every estimator, and
    leaves the instance and the prior as they were. *)
Theorem estimators_fail_closed (this prior : t) (sample : list double) (var : double) :
  In var sample -> Dbl.lt var 0 = true ->
  fitScaleMLE this sample = (false, this)
  /\ fitShapeAndScaleMLE this sample = (false, this)
  /\ fitShapeMM this sample = (false, this)
  /\ fitScaleMM this sample = (false, this)
  /\ fitShapeAndScaleMM this sample = (false, this)
  /\ fitRateBayes this sample prior = (false, this, prior).
Proof.
  intros Hin Hlt. pose proof (checkValidity_rejects _ Hin Hlt) as E.
  unfold fitScaleMM, fitScaleMLE, fitShapeAndScaleMLE, fitShapeMM, fitShapeAndScaleMM,
    fitRateBayes.
  rewrite E. cbn [negb]. rewrite !orb_true_r. repeat split.
Qed.

(** X7.  The empty sample: the estimators that read the sample size reject
    it; the others accept it and reconfigure from the mean of no values. *)
Theorem estimators_on_empty_sample (this prior : t) :
  fitShapeAndScaleMLE this [] = (false, this)
  /\ fitRateBayes this [] prior = (false, this, prior)
  /\ fitScaleMLE this [] = (true, setParameters this (alpha this) (sampleMean [] / alpha this))
  /\ fitShapeMM this [] = (true, setParameters this (sampleMean [] / theta this) (theta this))
  /\ fst (fitShapeAndScaleMM this []) = true.
Proof.
  repeat split.
Qed.

End WithCollaborators.

Section Configuration.
Context {PF : Platform} {RM : RandMathOps} {CS : Constants}.

Lemma setConstantsForGenerator_idempotent (this : t) :
  setConstantsForGenerator (setConstantsForGenerator this) = setConstantsForGenerator this.
Proof. reflexivity. Qed.

(** X8.  Configuring twice with the same arguments is configuring once. *)
Theorem setParameters_idempotent (this : t) (shape scale : double) :
  setParameters (setParameters this shape scale) shape scale
  = setParameters this shape scale.
Proof.
  unfold setParameters.
  destruct (RandMath.areClose _ _);
    match goal with |- context [if ?b then setConstantsForGenerator _ else _] =>
      destruct b end; reflexivity.
Qed.

End Configuration.

End GammaRandMoreFacts.

(** ** [GammaRand]: the generators *)

Module GammaRandDrawsFacts.
Import GammaRand GammaRandMore GenFacts LoopFacts DblFacts DblMoreFacts.

Section WithCollaborators.
Context {PF : Platform} {RM : RandMathOps} {CS : Constants}.

(** The shape that [setParameters] stores is a number when its argument is. *)
Lemma setParameters_shape_not_nan (this : t) (shape scale : double) :
  Dbl.isnan shape = false -> Dbl.isnan (alpha (setParameters this shape scale)) = false.
Proof.
  intros N.
  destruct (GammaRandFacts.setParameters_members this shape scale)
    as (_ & _ & _ & A & _).
  rewrite A. clear A.
  destruct (RandMath.areClose (clamped shape) (Dbl.round (clamped shape))) eqn:E.
  - exact (areClose_not_nan E).
  - unfold clamped. destruct (Dbl.le shape 0); [reflexivity | exact N].
Qed.

Lemma setParameters_large_shape (this : t) (shape scale : double) :
  let this' := setParameters this shape scale in
  Dbl.gt (alpha this') 3 = true -> setConstantsForGenerator this' = this'.
Proof.
  cbv zeta. unfold setParameters.
  destruct (RandMath.areClose _ _);
    match goal with |- context [if ?b then setConstantsForGenerator _ else _] =>
      destruct b eqn:E end; try reflexivity; cbn [alpha]; rewrite E; discriminate.
Qed.

Section WithVariates.
Context {Rng : Type} {VR : Variates Rng}.
Variable fuel : positive.

(** X9.  After [setParameters] with a shape that is a number, either the
    constants of the large-shape generator are those of the stored shape, or
    [variate] runs a generator that does not read them. *)
Theorem large_shape_constants_are_current (this : t) (shape scale : double) :
  let this' := setParameters this shape scale in
  Dbl.isnan shape = false ->
  setConstantsForGenerator this' = this'
  \/ variate fuel this' = scaled this' (variateForIntegerShape this')
  \/ variate fuel this' = scaled this' (variateForSmallShape this')
  \/ variate fuel this' = scaled this' (variateForMediumShape fuel this').
Proof.
  cbv zeta. intros N.
  pose proof (@setParameters_shape_not_nan this shape scale N) as Na.
  pose proof (@setParameters_large_shape this shape scale) as L. cbv zeta in L.
  set (this' := setParameters this shape scale) in *.
  destruct (Dbl.gt (alpha this') 3) eqn:G; [left; now apply L | right].
  assert (Dbl.le (alpha this') 3 = true) as L3.
  { pose proof (@not_gt_le_or_nan (alpha this') 3 eq_refl) as H.
    rewrite G, Na in H. simpl in H. now rewrite orb_false_r in H. }
  assert (Dbl.lt (alpha this') 5 = true) as L5.
  { apply (@le_lt_trans _ 3 5 L3). reflexivity. }
  unfold variate. rewrite L5, L3.
  destruct (RandMath.areClose (alpha this') _); [now left |].
  destruct (RandMath.areClose (alpha this' - 0.5) _); [now left |].
  destruct (Dbl.le (alpha this') 1); [right; now left | right; now right].
Qed.

(** The passes of the integer-shape loop below the bound. *)
Lemma sumOfExponentials_runs (bound : double) (k : nat) :
  forall (j : nat) (i : Z) (rv : double) (g : Rng),
    (forall i', (i <= i' < i + Z.of_nat k)%Z -> Dbl.lt (Dbl.of_int i') bound = true) ->
    Dbl.lt (Dbl.of_int (i + Z.of_nat k)) bound = false ->
    (k < j)%nat ->
    runs j (fun '(i, rv) =>
              if Dbl.lt (Dbl.of_int i) bound then
                W <- draw Exponential_standardVariate ;;
                ret (Again ((i + 1)%Z, rv + W))
              else ret (Leave rv)) (i, rv) g
    = Some (Leave (fst (sumOfExponentialDraws k rv g)), snd (sumOfExponentialDraws k rv g)).
Proof.
  induction k as [|k IH]; intros j i rv g Hbelow Hstop Hj.
  - destruct j as [|j]; [lia |]. cbn [runs]. unfold bind.
    rewrite Z.add_0_r in Hstop. rewrite Hstop. reflexivity.
  - destruct j as [|j]; [lia |]. cbn [runs]. unfold bind at 1.
    rewrite (Hbelow i) by lia.
    unfold bind, draw, ret. cbn [sumOfExponentialDraws].
    apply IH.
    + intros i' Hi'. apply Hbelow. lia.
    + replace (i + 1 + Z.of_nat k)%Z with (i + Z.of_nat (S k))%Z by lia. exact Hstop.
    + lia.
Qed.

(** X10.  The integer-shape generator adds up one standard-exponential draw
    for each [int] from 0 that is below the shape, and makes no other draw. *)
Theorem variateForIntegerShape_sums_its_draws (this : t) (k : Z) (g : Rng) :
  (0 <= k < 2147483648)%Z ->
  (forall i, (0 <= i < k)%Z -> Dbl.lt (Dbl.of_int i) (alpha this) = true) ->
  Dbl.lt (Dbl.of_int k) (alpha this) = false ->
  variateForIntegerShape this g = Some (sumOfExponentialDraws (Z.to_nat k) 0 g).
Proof.
  intros Hk Hbelow Hstop.
  unfold variateForIntegerShape, sumOfExponentials, loop. unfold bind at 1.
  rewrite iterate_runs.
  rewrite (@sumOfExponentials_runs (alpha this) (Z.to_nat k)).
  - unfold ret. now destruct (sumOfExponentialDraws (Z.to_nat k) 0 g).
  - intros i Hi. apply Hbelow. lia.
  - rewrite Z2Nat.id by lia. exact Hstop.
  - unfold int_fuel. lia.
Qed.



(** X12.  [sample] writes every element and keeps the length of the buffer. *)
Theorem gamma_sample_keeps_length
        (this : t) (outputData out : list double) (g g' : Rng) :
  sample fuel this outputData g = Some (out, g') -> length out = length outputData.
Proof.
  unfold sample.
  repeat match goal with |- context [if ?b then _ else _] => destruct b end;
    apply fill_length.
Qed.

End WithVariates.
End WithCollaborators.

End GammaRandDrawsFacts.

(** ** [ChiSquaredRand] *)

Module ChiSquaredRandFacts.
Import GammaRand.

Section WithCollaborators.
Context {PF : Platform} {RM : RandMathOps} {CS : Constants}.

(** X13.  A degree below 1 configures the instance as degree 1 does, and the
    scale is 2 (rate one half) at every degree. *)
Theorem setDegree_clamps_and_pins_scale (this : t) (degree : Z) :
  ChiSquaredRand.setDegree this degree = ChiSquaredRand.setDegree this (Z.max degree 1)
  /\ theta (ChiSquaredRand.setDegree this degree) = 2
  /\ beta (ChiSquaredRand.setDegree this degree) = 0.5.
Proof.
  split.
  - unfold ChiSquaredRand.setDegree.
    destruct (Z.ltb_spec degree 1) as [H | H].
    + replace (Z.max degree 1) with 1%Z by lia. reflexivity.
    + replace (Z.max degree 1) with degree by lia.
      destruct (Z.ltb_spec degree 1); [lia | reflexivity].
  - unfold ChiSquaredRand.setDegree.
    destruct (GammaRandFacts.setParameters_members
                this (if (degree <? 1)%Z then 0.5 else 0.5 * Dbl.of_int degree) 2)
      as (_ & T & B & _).
    rewrite B, T. split; reflexivity.
Qed.

End WithCollaborators.

End ChiSquaredRandFacts.

(** ** [BinomialRand]: the Bernoulli sum *)

Module BinomialRandMoreFacts.
Import BinomialRand BinomialRandMore GenFacts LoopFacts.

Section WithCollaborators.
Context {PF : Platform} {RM : RandMathOps} {CS : Constants} {Rng : Type} {VR : Variates Rng}.

(** The body of the loop of [sumOfBernoulli]. *)
Lemma sumOfBernoulli_runs (number : Z) (bernoulli : Rng -> Z * Rng) (k : nat) :
  forall (j : nat) (i var : Z) (g : Rng),
    (i + Z.of_nat k = number)%Z -> (k < j)%nat ->
    runs j (fun '(i, var) =>
              if negb (i =? number)%Z then
                x <- draw bernoulli ;;
                ret (Again ((i + 1)%Z, (var + x)%Z))
              else ret (Leave var)) (i, var) g
    = Some (Leave (fst (sumOfDraws k bernoulli var g)), snd (sumOfDraws k bernoulli var g)).
Proof.
  induction k as [|k IH]; intros j i var g Hi Hj.
  - destruct j as [|j]; [lia |]. cbn [runs]. unfold bind.
    replace (i =? number)%Z with true by (symmetry; apply Z.eqb_eq; lia).
    reflexivity.
  - destruct j as [|j]; [lia |]. cbn [runs]. unfold bind at 1.
    replace (i =? number)%Z with false by (symmetry; apply Z.eqb_neq; lia).
    cbn [negb]. unfold bind, draw, ret. cbn [sumOfDraws].
    apply IH; lia.
Qed.

Lemma sumOfBernoulli_sums (number : Z) (bernoulli : Rng -> Z * Rng) (g : Rng) :
  (0 <= number < 2147483648)%Z ->
  sumOfBernoulli number (draw bernoulli) g
  = Some (sumOfDraws (Z.to_nat number) bernoulli 0%Z g).
Proof.
  intros Hn. unfold sumOfBernoulli, loop. unfold bind at 1. rewrite iterate_runs.
  rewrite (@sumOfBernoulli_runs number bernoulli (Z.to_nat number)).
  - unfold ret. now destruct (sumOfDraws (Z.to_nat number) bernoulli 0%Z g).
  - lia.
  - unfold int_fuel. lia.
Qed.

(** While the counter is past [number] the loop goes round. *)
Lemma sumOfBernoulli_overruns (number : Z) (bernoulli : Rng -> Z * Rng) (j : nat) :
  forall (i var : Z) (g : Rng),
    (number < i)%Z ->
    exists var' g',
      runs j (fun '(i, var) =>
                if negb (i =? number)%Z then
                  x <- draw bernoulli ;;
                  ret (Again ((i + 1)%Z, (var + x)%Z))
                else ret (Leave var)) (i, var) g
      = Some (Again ((i + Z.of_nat j)%Z, var'), g').
Proof.
  induction j as [|j IH]; intros i var g Hi.
  - exists var, g. simpl. now rewrite Z.add_0_r.
  - cbn [runs]. unfold bind at 1.
    replace (i =? number)%Z with false by (symmetry; apply Z.eqb_neq; lia).
    cbn [negb]. unfold bind at 1, draw, ret.
    destruct (IH (i + 1)%Z (var + fst (bernoulli g))%Z (snd (bernoulli g))) as (var' & g' & E);
      [lia |].
    exists var', g'. etransitivity; [exact E |]. do 3 f_equal. f_equal. lia.
Qed.

(** X14.  A Bernoulli sum over a count in the range of [int] makes exactly that
    many draws, in order, and returns their sum. *)
Theorem variate_static_sums_its_draws (number : Z) (probability : double) (g : Rng) :
  (0 <= number < 2147483648)%Z ->
  variate_static number probability g
  = Some (sumOfDraws (Z.to_nat number)
                     (if RandMath.areClose probability 0.5
                      then Bernoulli_standardVariate
                      else Bernoulli_variate probability) 0%Z g).
Proof.
  intros Hn. unfold variate_static, variateBernoulliSum.
  destruct (RandMath.areClose probability 0.5); now apply sumOfBernoulli_sums.
Qed.

(** X15.  On a negative count the exit test [i != number] holds at every
    value of [i] from 0 up to the largest [int], where the next increment
    overflows: the run has no value. *)
Theorem variate_static_negative_count (number : Z) (probability : double) (g : Rng) :
  (number < 0)%Z -> variate_static number probability g = None.
Proof.
  intros Hn. unfold variate_static, variateBernoulliSum.
  destruct (RandMath.areClose probability 0.5);
    unfold sumOfBernoulli, loop; unfold bind at 1; rewrite iterate_runs.
  - destruct (@sumOfBernoulli_overruns number Bernoulli_standardVariate
                (Pos.to_nat int_fuel) 0%Z 0%Z g) as (var' & g' & ->); [lia | reflexivity].
  - destruct (@sumOfBernoulli_overruns number (Bernoulli_variate probability)
                (Pos.to_nat int_fuel) 0%Z 0%Z g) as (var' & g' & ->); [lia | reflexivity].
Qed.

Lemma sumOfDraws_range (bernoulli : Rng -> Z * Rng) (k : nat) :
  (forall g, (0 <= fst (bernoulli g) <= 1)%Z) ->
  forall total g,
    (total <= fst (sumOfDraws k bernoulli total g) <= total + Z.of_nat k)%Z.
Proof.
  intros Hb. induction k as [|k IH]; intros total g; cbn [sumOfDraws].
  - simpl. lia.
  - specialize (IH (total + fst (bernoulli g))%Z (snd (bernoulli g))).
    specialize (Hb g). lia.
Qed.

End WithCollaborators.

End BinomialRandMoreFacts.

(** ** [BinomialRand]: configuration, estimators and draws *)

Module BinomialRandConfigFacts.
Import BinomialRand BinomialRandMore GenFacts LoopFacts DblFacts DblMoreFacts.

Section WithCollaborators.
Context {PF : Platform} {RM : RandMathOps} {CS : Constants} {Rng : Type} {VR : Variates Rng}.

(** X16.  What every successful [setParameters] leaves in the instance,
    whichever generator it prepares. *)
Theorem setParameters_invariants (this this' : t) (number : Z) (probability : double) :
  setParameters this number probability = Some this' ->
  n this' = Z.max number 1
  /\ p this' = Dbl.max (Dbl.min probability 1.0) 0.0
  /\ q this' = 1.0 - p this'
  /\ np this' = Dbl.of_int (n this') * p this'
  /\ minpq this' = Dbl.min (p this') (q this')
  /\ npFloor this' = Dbl.floor (Dbl.of_int (n this') * minpq this')
  /\ pFloor this' = npFloor this' / Dbl.of_int (n this').
Proof.
  unfold setParameters, setGeneratorConstants.
  match goal with |- context [getIdOfUsedGenerator ?r] => destruct (getIdOfUsedGenerator r) end.
  - intros E. inversion E; subst this'. cbn. repeat split.
  - intros E. inversion E; subst this'. cbn. repeat split.
  - destruct (Dbl.to_int _) as [k|]; [| discriminate].
    intros E. inversion E; subst this'. cbn. repeat split.
Qed.

Lemma setParameters_probability (this this' : t) (number : Z) (probability : double) :
  setParameters this number probability = Some this' ->
  p this' = Dbl.max (Dbl.min probability 1.0) 0.0.
Proof.
  unfold setParameters, setGeneratorConstants.
  match goal with |- context [getIdOfUsedGenerator ?r] => destruct (getIdOfUsedGenerator r) end.
  - intros E. inversion E; subst this'. reflexivity.
  - intros E. inversion E; subst this'. reflexivity.
  - destruct (Dbl.to_int _) as [k|]; [| discriminate].
    intros E. inversion E; subst this'. reflexivity.
Qed.

Lemma clamp_probability (probability : double) :
  let p := Dbl.max (Dbl.min probability 1.0) 0.0 in
  Dbl.isnan p = Dbl.isnan probability
  /\ (Dbl.isnan probability = false -> Dbl.le 0 p = true /\ Dbl.le p 1 = true).
Proof.
  cbv zeta. unfold Dbl.min, Dbl.max.
  fold (Dbl.lt 1.0 probability).
  destruct (Dbl.lt 1.0 probability) eqn:E1.
  - change (1.0 <? 0.0) with false. cbv iota.
    destruct (Dbl.isnan probability) eqn:N.
    + rewrite (@lt_nan_r 1.0 probability N) in E1. discriminate.
    + split; [reflexivity | intros _; split; reflexivity].
  - fold (Dbl.lt probability 0.0).
    destruct (Dbl.lt probability 0.0) eqn:E0.
    + destruct (Dbl.isnan probability) eqn:N.
      * rewrite (@lt_nan_l probability 0.0 N) in E0. discriminate.
      * split; [reflexivity | intros _; split; reflexivity].
    + split; [reflexivity |]. intros N. split.
      * pose proof (not_lt_zero probability) as H. rewrite E0, N in H.
        simpl in H. now rewrite orb_false_r in H.
      * pose proof (@not_gt_le_or_nan probability 1.0 eq_refl) as H.
        unfold Dbl.gt in H. fold (Dbl.lt 1.0 probability) in H. rewrite E1, N in H.
        simpl in H. now rewrite orb_false_r in H.
Qed.

(** X17.  The stored probability lies in [0, 1] whenever the argument is a
    number; an argument that is NaN is stored as it is. *)
Theorem setParameters_probability_range
        (this this' : t) (number : Z) (probability : double) :
  setParameters this number probability = Some this' ->
  Dbl.isnan (p this') = Dbl.isnan probability
  /\ (Dbl.isnan probability = false ->
      Dbl.le 0 (p this') = true /\ Dbl.le (p this') 1 = true).
Proof.
  intros E. rewrite (setParameters_probability _ _ _ E). apply clamp_probability.
Qed.

(** *** The estimators *)

Lemma checkValidity_app (this : t) (before rest : list double) :
  checkValidity this before = Some true ->
  checkValidity this (before ++ rest) = checkValidity this rest.
Proof.
  induction before as [|x before IH]; [reflexivity |]. cbn [checkValidity app].
  destruct (Dbl.to_int x) as [var|]; [| discriminate].
  destruct ((var <? 0)%Z || (var >? n this)%Z); [discriminate | exact IH].
Qed.

(** X18.  The first element whose [int] value is outside [0, n] makes both
    frequentist estimators fail and leaves the instance alone; the elements
    after it are not read. *)
Theorem fitProbability_fails_closed
        (this : t) (before rest : list double) (x : double) (var : Z) :
  checkValidity this before = Some true ->
  Dbl.to_int x = Some var ->
  (var < 0 \/ n this < var)%Z ->
  fitProbabilityMLE this (before ++ x :: rest) = Some (false, this)
  /\ fitProbabilityMM this (before ++ x :: rest) = Some (false, this).
Proof.
  intros Hb Hx Hv. unfold fitProbabilityMM, fitProbabilityMLE.
  rewrite (@checkValidity_app this before (x :: rest) Hb). cbn [checkValidity]. rewrite Hx.
  replace ((var <? 0)%Z || (var >? n this)%Z) with true; [split; reflexivity |].
  symmetry. apply orb_true_iff. rewrite Z.ltb_lt, Z.gtb_ltb, Z.ltb_lt. exact Hv.
Qed.

(** *** Draws *)

Variable fuel : positive.

(** X19.  In the Bernoulli-sum regime, with draws that are 0 or 1, [variate]
    returns a count between 0 and [n]. *)
Theorem variate_of_bernoulli_sum_in_range (this : t) (g : Rng) :
  getIdOfUsedGenerator this = BERNOULLI_SUM ->
  (0 <= n this < 2147483648)%Z ->
  (forall g, 0 <= fst (Bernoulli_standardVariate g) <= 1)%Z ->
  (forall p g, 0 <= fst (Bernoulli_variate p g) <= 1)%Z ->
  exists k g', variate fuel this g = Some (k, g') /\ (0 <= k <= n this)%Z.
Proof.
  intros Hid Hn Hs Hv. unfold variate. rewrite Hid. unfold variateBernoulliSum.
  destruct (RandMath.areClose (p this) 0.5);
    rewrite (BinomialRandMoreFacts.sumOfBernoulli_sums _ g Hn);
    match goal with |- context [sumOfDraws ?k ?b 0%Z g] =>
      exists (fst (sumOfDraws k b 0%Z g)), (snd (sumOfDraws k b 0%Z g));
      split; [now rewrite <- surjective_pairing |];
      pose proof (BinomialRandMoreFacts.sumOfDraws_range b k) as H
    end.
  - specialize (H Hs 0%Z g). lia.
  - specialize (H (Hv (p this)) 0%Z g). lia.
Qed.

(** X20.  The waiting-time generator returns a count that is not negative. *)
Theorem variateWaiting_not_negative (this : t) (number X : Z) (g g' : Rng) :
  variateWaiting fuel this number g = Some (X, g') -> (0 <= X)%Z.
Proof.
  unfold variateWaiting.
  apply (@loop_invariant _ _ _ _
           (fun (x : Z * Z) (_ : Rng) => (-1 <= fst x)%Z)
           (fun (X : Z) (_ : Rng) => (0 <= X)%Z)).
  - intros [X0 sum] g0 r g1 HI. cbn [fst] in HI. unfold bind, draw.
    destruct (as_int _ _) as [[sum' g2]|]; [| discriminate].
    destruct (sum' <=? number)%Z; intros E; inversion E; subst; simpl; lia.
  - simpl. lia.
Qed.

(** X21.  [sample] writes every element and keeps the length of the buffer. *)
Theorem binomial_sample_keeps_length
        (this : t) (outputData out : list Z) (g g' : Rng) :
  sample fuel this outputData g = Some (out, g') -> length out = length outputData.
Proof.
  unfold sample.
  destruct (Dbl.eq (p this) 0.0).
  { intros E. inversion E; subst. apply length_map. }
  destruct (RandMath.areClose (p this) 1.0).
  { intros E. inversion E; subst. apply length_map. }
  destruct (getIdOfUsedGenerator this).
  - apply fill_length.
  - destruct (Dbl.le (p this) 0.5); apply fill_length.
  - unfold bind.
    destruct (fill (variateRejection this) outputData g) as [[out1 g1]|] eqn:E1;
      [| discriminate].
    apply fill_length in E1.
    destruct (Dbl.gt (pRes this) 0).
    + destruct (refill _ out1 g1) as [[out2 g2]|] eqn:E2; [| discriminate].
      apply refill_length in E2.
      destruct (Dbl.gt (p this) 0.5); intros E; inversion E; subst;
        rewrite ?length_map; congruence.
    + unfold ret at 1.
      destruct (Dbl.gt (p this) 0.5); intros E; inversion E; subst;
        rewrite ?length_map; congruence.
Qed.

End WithCollaborators.

End BinomialRandConfigFacts.

(** ** [BinomialRand]: the regimes *)

Module BinomialRandRegimeFacts.
Import BinomialRand.

Section WithCollaborators.
Context {PF : Platform} {RM : RandMathOps} {CS : Constants} {Rng : Type} {VR : Variates Rng}.

(** X22.  For a count of 3 or less [setParameters] always succeeds, and the
    instance it leaves draws by the Bernoulli sum, whatever the probability. *)
Theorem setParameters_small_count (this : t) (number : Z) (probability : double) :
  (number <= 3)%Z ->
  exists this',
    setParameters this number probability = Some this'
    /\ getIdOfUsedGenerator this' = BERNOULLI_SUM.
Proof.
  intros Hn. unfold setParameters, setGeneratorConstants.
  match goal with |- context [getIdOfUsedGenerator ?r] =>
    assert (getIdOfUsedGenerator r = BERNOULLI_SUM) as E
  end.
  { unfold getIdOfUsedGenerator. cbn [n].
    replace (Z.max number 1 <=? 3)%Z with true by (symmetry; apply Z.leb_le; lia).
    reflexivity. }
  rewrite E. eexists. split; [reflexivity | exact E].
Qed.

(** X23.  When the instance that a successful [setParameters] leaves is in
    the rejection regime, the constants of that regime were prepared by this
    call: the floor of [n * minpq] has an [int] value [k], and the cached
    logarithm is [logProbFloor (k)] on the new members. *)
Theorem setParameters_rejection_constants
        (this this' : t) (number : Z) (probability : double) :
  setParameters this number probability = Some this' ->
  getIdOfUsedGenerator this' = REJECTION ->
  exists k,
    Dbl.to_int (npFloor this') = Some k
    /\ logPnpInv this' = logProbFloor this' k
    /\ nqFloor this' = Dbl.of_int (n this') - npFloor this'
    /\ logPFloor this' = log (pFloor this')
    /\ logQFloor this'
       = (if Dbl.eq (pFloor this') (1.0 - pFloor this') then logPFloor this'
          else log (1.0 - pFloor this')).
Proof.
  unfold setParameters, setGeneratorConstants.
  match goal with |- context [getIdOfUsedGenerator ?r] =>
    set (this1 := r); destruct (getIdOfUsedGenerator this1) eqn:Eid
  end.
  - intros E. inversion E; subst this'. intros E'. congruence.
  - intros E. inversion E; subst this'. intros E'.
    change (getIdOfUsedGenerator this1 = REJECTION) in E'. congruence.
  - destruct (Dbl.to_int _) as [k|] eqn:Ek; [| discriminate].
    intros E. inversion E; subst this'. intros _.
    exists k. cbn. repeat split. exact Ek.
Qed.

End WithCollaborators.

End BinomialRandRegimeFacts.

(** ** [ContinuousDistribution]: the median *)

Module MedianFacts.
Import ContinuousDistribution.

Section WithRandMath.
Context {PF : Platform} {RM : RandMathOps}.

(** X24.  [Median] never takes the domain-error path of [Quantile]: it is
    the root that Newton's method finds for [F(x) - 0.5] from the mean (from
    0 when the mean is NaN or infinite), or [INFINITY] when the method
    fails. *)
Theorem Median_is_root_or_infinity (this : t) :
  Median this
  = (let '(found, root) :=
       findRoot (fun x => F this x - 0.5) (fun x => f this x) (newtonSeed this) in
     if found then root else INFINITY).
Proof.
  unfold Median, Quantile, newtonSeed.
  change (Dbl.lt 0.5 0 || Dbl.gt 0.5 1) with false. cbv iota zeta.
  destruct (Dbl.isnan (Mean this) || Dbl.isinf (Mean this)); reflexivity.
Qed.

End WithRandMath.

End MedianFacts.

(** ** Runs on the reference collaborators *)

Module Runs.
Import Reference.

(** C3, at shape 1.4999999 and scale 1, on the tape of draws [1; 3; 7]:
    [sample] fills a one-slot buffer with 1 + 3 * 3 / 2 = 5.5, the
    half-integer generator, where [variate] on the same tape returns
    1 + 3 = 4, the integer-shape generator. *)
Theorem sample_differs_from_variate_at_half_integer :
  let this := GammaRand.setParameters gamma0 1.4999999 1 in
  GammaRand.sample 100 this [0] [1; 3; 7] = Some ([5.5], [7])
  /\ fill (GammaRand.variate 100 this) [0] [1; 3; 7] = Some ([4], [7]).
Proof.
  cbv zeta. split; vm_compute; reflexivity.
Qed.

(** C2, at [n = 5], [p = 0.5] and the sample [7]: the value 7 lies outside
    [0, 5]; the maximum-likelihood and moment estimators report failure and
    leave the instance as it was, while the Bayesian estimator, under the
    prior Beta(1, 1), reports success and moves [p] to 8/9.  The validity
    check also converts every sample value to [int] first, so it accepts 5.5
    and -0.5. *)
Theorem fitProbabilityBayes_accepts_invalid_sample :
  let this := configured (VR := variates) 0 5 0.5 in
  BinomialRand.p this = 0.5
  /\ BinomialRand.checkValidity this [7] = Some false
  /\ BinomialRand.fitProbabilityMLE this [7] = Some (false, this)
  /\ BinomialRand.fitProbabilityMM this [7] = Some (false, this)
  /\ option_map (fun r => (fst (fst r), BinomialRand.p (snd (fst r)), snd r))
                (BinomialRand.fitProbabilityBayes this [7] (1, 1))
     = Some (true, 0.88888888888888884, (8, 1))
  /\ BinomialRand.checkValidity this [5.5] = Some true
  /\ BinomialRand.checkValidity this [-0.5] = Some true.
Proof.
  cbv zeta. repeat split; vm_compute; reflexivity.
Qed.

(** *** The theorems at concrete inputs *)

Lemma Quantile_contract_witness :
  ContinuousDistribution.Quantile exponential 2 = NAN
  /\ ContinuousDistribution.Quantile exponential 0.5 = 0.69314718055966107.
Proof.
  destruct (ContinuousDistributionFacts.Quantile_contract exponential 2) as [Hnan _].
  destruct (ContinuousDistributionFacts.Quantile_contract exponential 0.5)
    as (_ & Hroot & _).
  split.
  - apply Hnan. vm_compute. reflexivity.
  - apply (Hroot ltac:(vm_compute; reflexivity) 0.69314718055966107).
    vm_compute. reflexivity.
Defined.

Lemma ProbabilityDensityFunction_frame_witness :
  let y := ContinuousDistribution.ProbabilityDensityFunction exponential [0; -1] [9; 9; 9] in
  length y = 3%nat /\ nth 0 y 0 = 1 /\ nth 1 y 0 = 0 /\ nth 2 y 0 = 9.
Proof.
  cbv zeta.
  destruct (ContinuousDistributionFacts.ProbabilityDensityFunction_frame
              exponential [0; -1] [9; 9; 9] 0) as [Hfits _].
  destruct (Hfits ltac:(simpl; lia)) as (Hlen & Hwritten & Hkept).
  split; [exact Hlen | split; [| split]].
  - rewrite (Hwritten 0%nat) by (simpl; lia). vm_compute. reflexivity.
  - rewrite (Hwritten 1%nat) by (simpl; lia). vm_compute. reflexivity.
  - rewrite (Hkept 2%nat) by (simpl; lia). reflexivity.
Defined.


Lemma variate_reflects_witness :
  let this := configured (VR := variates) 0 20 0.9 in
  BinomialRand.variateWaiting 100 this 20 [3; 5; 6; 9; 4; 1] = Some (3%Z, [4; 1])
  /\ BinomialRand.variate 100 this [3; 5; 6; 9; 4; 1] = Some (17%Z, [4; 1]).
Proof.
  cbv zeta. split; [vm_compute; reflexivity |].
  destruct (BinomialRandFacts.variate_reflects_minority_draw
              100 (configured (VR := variates) 0 20 0.9) [3; 5; 6; 9; 4; 1])
    as [Hwaiting _].
  destruct (Hwaiting ltac:(vm_compute; reflexivity)) as [Hreflected _].
  rewrite (Hreflected ltac:(vm_compute; reflexivity)).
  vm_compute. reflexivity.
Defined.


Lemma sample_short_circuits_witness :
  BinomialRand.sample 100 (configured (VR := variates) 0 5 0) [9; 9]%Z [2; 3; 4]
  = Some ([0; 0]%Z, [2; 3; 4])
  /\ BinomialRand.sample 100 (configured (VR := variates) 0 5 1) [9; 9]%Z [2; 3; 4]
     = Some ([5; 5]%Z, [2; 3; 4])
  /\ BinomialRand.variate (VR := counted) 100 (configured (VR := counted) 0 5 0)
                          ([2; 3; 4], 0%nat)
     = Some (1%Z, ([4], 2%nat))
  /\ (0 < 2)%nat.
Proof.
  destruct (BinomialDrawsFacts.sample_short_circuits_but_variate_draws
              (VR := variates) 100) as (Hzero & Hone & Hdraws).
  split; [| split; [| split]].
  - apply (Hzero (configured (VR := variates) 0 5 0)). vm_compute. reflexivity.
  - apply (Hone (configured (VR := variates) 0 5 1)). vm_compute. reflexivity.
  - vm_compute. reflexivity.
  - apply (Hdraws (configured (VR := counted) 0 5 0) ([2; 3; 4], 0%nat) ([4], 2%nat) 1%Z).
    + vm_compute. discriminate.
    + vm_compute. reflexivity.
Defined.

(** [ExpectedValue] of the identity under the exponential distribution: the
    search stops after 1 step downwards and 26 steps upwards, and Simpson's
    rule over [0, 27] gives the mean 1 to three digits. *)
Example ExpectedValue_of_exponential :
  ContinuousDistribution.firstStop exponential (fun x => x) (fun x => x - 1) 1 = Some 1%nat
  /\ ContinuousDistribution.firstStop exponential (fun x => x) (fun x => x + 1) 1 = Some 26%nat
  /\ ContinuousDistribution.ExpectedValue exponential (fun x => x) 1
     = Some 0.99949022737021287.
Proof.
  repeat split; vm_compute; reflexivity.
Qed.

End Runs.

(** ** More runs on the reference collaborators *)

Module RunsMore.
Import Reference ReferenceMore.

Lemma likelihood_propagates_nan_witness :
  Dbl.isnan (ContinuousDistributionMore.likelihood exponential [1; NAN; 2]) = true.
Proof.
  destruct (@ContinuousDistributionMoreFacts.likelihood_propagates_nan
              _ exponential [1; NAN; 2] NAN) as [Hnan _].
  - simpl. tauto.
  - apply Hnan. vm_compute. reflexivity.
Defined.

Lemma mode_bracket_witness :
  ContinuousDistributionMore.localize 100 tent
  = Some {| ContinuousDistributionMore.a := 10; ContinuousDistributionMore.b := 30;
            ContinuousDistributionMore.mu := 20;
            ContinuousDistributionMore.fa := ContinuousDistribution.f tent (-10);
            ContinuousDistributionMore.fb := ContinuousDistribution.f tent 30;
            ContinuousDistributionMore.fmu := ContinuousDistribution.f tent 20 |}
  /\ Dbl.gt (ContinuousDistribution.f tent 10) (ContinuousDistribution.f tent 20) = false
  /\ Dbl.gt (ContinuousDistribution.f tent 30) (ContinuousDistribution.f tent 20) = false.
Proof.
  assert (ContinuousDistributionMore.localize 100 tent
          = Some {| ContinuousDistributionMore.a := 10; ContinuousDistributionMore.b := 30;
                    ContinuousDistributionMore.mu := 20;
                    ContinuousDistributionMore.fa := ContinuousDistribution.f tent (-10);
                    ContinuousDistributionMore.fb := ContinuousDistribution.f tent 30;
                    ContinuousDistributionMore.fmu := ContinuousDistribution.f tent 20 |}) as E
    by (vm_compute; reflexivity).
  split; [exact E |].
  exact (ContinuousDistributionMoreFacts.mode_bracket_holds_a_peak 100 tent E).
Defined.

Lemma large_shape_constants_witness :
  GammaRand.setConstantsForGenerator (GammaRand.setParameters gamma0 7.5 2)
  = GammaRand.setParameters gamma0 7.5 2
  \/ GammaRand.variate 100 (GammaRand.setParameters gamma0 7.5 2) (Rng := Tape)
     = GammaRand.scaled (GammaRand.setParameters gamma0 7.5 2)
         (GammaRand.variateForIntegerShape (GammaRand.setParameters gamma0 7.5 2))
  \/ GammaRand.variate 100 (GammaRand.setParameters gamma0 7.5 2) (Rng := Tape)
     = GammaRand.scaled (GammaRand.setParameters gamma0 7.5 2)
         (GammaRand.variateForSmallShape (GammaRand.setParameters gamma0 7.5 2))
  \/ GammaRand.variate 100 (GammaRand.setParameters gamma0 7.5 2) (Rng := Tape)
     = GammaRand.scaled (GammaRand.setParameters gamma0 7.5 2)
         (GammaRand.variateForMediumShape 100 (GammaRand.setParameters gamma0 7.5 2)).
Proof.
  apply (GammaRandDrawsFacts.large_shape_constants_are_current
           (VR := variates) 100 gamma0 7.5 2).
  vm_compute. reflexivity.
Defined.

Lemma variateForIntegerShape_witness :
  GammaRand.variateForIntegerShape (GammaRand.setParameters gamma0 3 1) [1; 2; 4; 8]
  = Some (7, [8]).
Proof.
  rewrite (@GammaRandDrawsFacts.variateForIntegerShape_sums_its_draws
             _ variates (GammaRand.setParameters gamma0 3 1) 3 [1; 2; 4; 8]).
  - vm_compute. reflexivity.
  - lia.
  - intros i Hi. assert (i = 0 \/ i = 1 \/ i = 2)%Z as [-> | [-> | ->]] by lia;
      vm_compute; reflexivity.
  - vm_compute. reflexivity.
Defined.

Lemma gamma_sample_keeps_length_witness :
  GammaRand.sample 100 (GammaRand.setParameters gamma0 2 3) [0; 0] [1; 2; 4; 8; 16]
  = Some ([9; 36], [16])
  /\ length [9; 36] = length [0; 0].
Proof.
  assert (GammaRand.sample 100 (GammaRand.setParameters gamma0 2 3) [0; 0] [1; 2; 4; 8; 16]
          = Some ([9; 36], [16])) as E by (vm_compute; reflexivity).
  split; [exact E |].
  exact (GammaRandDrawsFacts.gamma_sample_keeps_length
           100 (GammaRand.setParameters gamma0 2 3) [0; 0] [1; 2; 4; 8; 16] E).
Defined.

Lemma estimators_fail_closed_witness :
  GammaRandMore.fitShapeAndScaleMLE (GammaRand.setParameters gamma0 2 3) [1; -1; 4]
  = (false, GammaRand.setParameters gamma0 2 3)
  /\ GammaRandMore.fitRateBayes (GammaRand.setParameters gamma0 2 3) [1; -1; 4] gamma0
     = (false, GammaRand.setParameters gamma0 2 3, gamma0).
Proof.
  destruct (@GammaRandMoreFacts.estimators_fail_closed
              _ _ _ _ _ (GammaRand.setParameters gamma0 2 3) gamma0 [1; -1; 4] (-1))
    as (_ & H1 & _ & _ & _ & H2).
  - simpl. tauto.
  - vm_compute. reflexivity.
  - split; [exact H1 | exact H2].
Defined.

Lemma setParameters_invariants_witness :
  let this := configured (VR := variates) 0 (-2) 0.25 in
  BinomialRand.n this = 1%Z /\ BinomialRand.q this = 0.75.
Proof.
  cbv zeta.
  assert (BinomialRand.setParameters (binomial0 (VR := variates) 0) (-2) 0.25
          = Some (configured (VR := variates) 0 (-2) 0.25)) as E
    by reflexivity.
  destruct (BinomialRandConfigFacts.setParameters_invariants _ _ _ E) as (Hn & Hp & Hq & _).
  split; [exact Hn |]. rewrite Hq, Hp. vm_compute. reflexivity.
Defined.

Lemma setParameters_probability_range_witness :
  let this := configured (VR := variates) 0 10 1.5 in
  Dbl.le 0 (BinomialRand.p this) = true /\ Dbl.le (BinomialRand.p this) 1 = true.
Proof.
  cbv zeta.
  assert (BinomialRand.setParameters (binomial0 (VR := variates) 0) 10 1.5
          = Some (configured (VR := variates) 0 10 1.5)) as E
    by reflexivity.
  destruct (BinomialRandConfigFacts.setParameters_probability_range _ _ _ E) as (_ & H).
  apply H. vm_compute. reflexivity.
Defined.

Lemma fitProbability_fails_closed_witness :
  let this := configured (VR := variates) 0 5 0.5 in
  BinomialRand.fitProbabilityMLE this [2; 6.5; NAN] = Some (false, this).
Proof.
  cbv zeta.
  destruct (@BinomialRandConfigFacts.fitProbability_fails_closed
              _ _ _ _ variates (configured (VR := variates) 0 5 0.5) [2] [NAN] 6.5 6)
    as (H & _).
  - vm_compute. reflexivity.
  - vm_compute. reflexivity.
  - right. vm_compute. reflexivity.
  - exact H.
Defined.

Lemma variate_static_sums_witness :
  BinomialRandMore.variate_static (VR := variates) 3 0.3 [0.1; 0.9; 0.2; 0.7]
  = Some (2%Z, [0.7]).
Proof.
  rewrite (@BinomialRandMoreFacts.variate_static_sums_its_draws
             _ variates 3 0.3 [0.1; 0.9; 0.2; 0.7]) by lia.
  vm_compute. reflexivity.
Defined.

Lemma variate_static_negative_witness :
  BinomialRandMore.variate_static (VR := variates) (-1) 0.3 [0.1; 0.9] = None.
Proof.
  apply BinomialRandMoreFacts.variate_static_negative_count. lia.
Defined.

Lemma variate_of_bernoulli_sum_witness :
  exists (k : Z) (g' : Tape),
    BinomialRand.variate 100 (configured (VR := variates) 0 3 0.3) [0.1; 0.9; 0.2; 0.7]
    = Some (k, g')
    /\ (0 <= k <= 3)%Z.
Proof.
  apply (@BinomialRandConfigFacts.variate_of_bernoulli_sum_in_range
           _ _ _ variates 100 (configured (VR := variates) 0 3 0.3)).
  - vm_compute. reflexivity.
  - vm_compute. split; [discriminate | reflexivity].
  - intros [|x g]; simpl; [destruct (Dbl.lt 0 0.5) | destruct (Dbl.lt x 0.5)]; simpl; lia.
  - intros p [|x g]; simpl; [destruct (Dbl.lt 0 p) | destruct (Dbl.lt x p)]; simpl; lia.
Defined.

Lemma variateWaiting_witness :
  BinomialRand.variateWaiting 100 (configured (VR := variates) 0 20 0.9) 3 [2; 5; 1]
  = Some (1%Z, [1])
  /\ (0 <= 1)%Z.
Proof.
  assert (BinomialRand.variateWaiting 100 (configured (VR := variates) 0 20 0.9) 3 [2; 5; 1]
          = Some (1%Z, [1])) as E by (vm_compute; reflexivity).
  split; [exact E |].
  exact (BinomialRandConfigFacts.variateWaiting_not_negative
           100 (configured (VR := variates) 0 20 0.9) 3 [2; 5; 1] E).
Defined.

Lemma binomial_sample_keeps_length_witness :
  BinomialRand.sample 100 (configured (VR := variates) 0 2 0.3) [9; 9]%Z
                      [0.1; 0.9; 0.2; 0.1; 0.7]
  = Some ([1; 2]%Z, [0.7])
  /\ length [1; 2]%Z = length [9; 9]%Z.
Proof.
  assert (BinomialRand.sample 100 (configured (VR := variates) 0 2 0.3) [9; 9]%Z
                              [0.1; 0.9; 0.2; 0.1; 0.7]
          = Some ([1; 2]%Z, [0.7])) as E by (vm_compute; reflexivity).
  split; [exact E |].
  exact (BinomialRandConfigFacts.binomial_sample_keeps_length
           100 (configured (VR := variates) 0 2 0.3) [9; 9]%Z [0.1; 0.9; 0.2; 0.1; 0.7] E).
Defined.

Lemma setParameters_small_count_witness :
  exists this',
    BinomialRand.setParameters (binomial0 (VR := variates) 0) 2 NAN = Some this'
    /\ BinomialRand.getIdOfUsedGenerator this' = BinomialRand.BERNOULLI_SUM.
Proof.
  apply BinomialRandRegimeFacts.setParameters_small_count. lia.
Defined.

Lemma setParameters_rejection_witness :
  let this := configured (VR := variates) 0 1000 0.3 in
  exists k,
    Dbl.to_int (BinomialRand.npFloor this) = Some k
    /\ BinomialRand.logPnpInv this = BinomialRand.logProbFloor this k.
Proof.
  cbv zeta.
  assert (BinomialRand.setParameters (binomial0 (VR := variates) 0) 1000 0.3
          = Some (configured (VR := variates) 0 1000 0.3)) as E by reflexivity.
  destruct (BinomialRandRegimeFacts.setParameters_rejection_constants _ _ _ E)
    as (k & Hk & Hlog & _).
  - vm_compute. reflexivity.
  - exists k. split; [exact Hk | exact Hlog].
Defined.

End RunsMore.
